(** * Transfermarkt injury scraper: a shallow embedding and its properties

    The development follows [src/scraper/transfermarkt_scraper.py].  The
    four public functions of the module and its helper [_flatten_columns]
    are embedded as Rocq functions; the HTTP session, the clock and the
    standard output are threaded through a small state-and-exception
    monad; the pandas frames the code builds are modelled column by
    column, the way pandas stores them.

    A Python [str] is a Rocq [string] holding its UTF-8 bytes.  Splitting
    on an ASCII character, searching an ASCII pattern and comparing for
    order agree on both views.  Trimming removes the encodings of the code
    points Python counts as whitespace, those beyond the ASCII range
    (U+0085, U+00A0, U+2000 and the like) included.  A Python [float] is a
    binary64 number of [PrimFloat]. *)

From Stdlib Require Import ZArith PrimFloat String Ascii List Bool Lia.
From stdpp Require Import base tactics option list strings gmap sorting pretty.

Local Open Scope string_scope.
Local Open Scope list_scope.

(** ** Python strings *)

Module Str.

Definition newline : ascii := "010"%char.

(** The UTF-8 bytes of a code point. *)
Definition encode (cp : N) : string :=
  let byte := ascii_of_N in
  (if cp <? 128 then String (byte cp) EmptyString
   else if cp <? 2048 then
     String (byte (192 + cp / 64)) (String (byte (128 + cp mod 64)) EmptyString)
   else if cp <? 65536 then
     String (byte (224 + cp / 4096))
       (String (byte (128 + (cp / 64) mod 64))
          (String (byte (128 + cp mod 64)) EmptyString))
   else
     String (byte (240 + cp / 262144))
       (String (byte (128 + (cp / 4096) mod 64))
          (String (byte (128 + (cp / 64) mod 64))
             (String (byte (128 + cp mod 64)) EmptyString))))%N.

(** The code points of which [str.isspace] holds: TAB..CR, FS..US, the
    blank, U+0085, U+00A0, U+1680, U+2000..U+200A, U+2028, U+2029, U+202F,
    U+205F and U+3000. *)
Definition blanks : list N :=
  [ 9; 10; 11; 12; 13; 28; 29; 30; 31; 32; 133; 160; 5760;
    8192; 8193; 8194; 8195; 8196; 8197; 8198; 8199; 8200; 8201; 8202;
    8232; 8233; 8239; 8287; 12288 ]%N.

Definition whitespace : list string := map encode blanks.

(** A continuation byte, 10xxxxxx. *)
Definition is_cont (c : ascii) : bool :=
  let n := N_of_ascii c in ((128 <=? n) && (n <? 192))%N.

(** The bytes are framed as UTF-8: every byte that opens a sequence is
    followed by as many continuation bytes as it announces, and no
    continuation byte stands elsewhere.  The bytes of a Python [str] are. *)
Fixpoint utf8 (s : string) : bool :=
  match s with
  | EmptyString => true
  | String a s1 =>
      let n := N_of_ascii a in
      if (n <? 128)%N then utf8 s1
      else if ((192 <=? n) && (n <? 224))%N then
        match s1 with
        | String b s2 => is_cont b && utf8 s2
        | _ => false
        end
      else if ((224 <=? n) && (n <? 240))%N then
        match s1 with
        | String b (String c s3) => is_cont b && is_cont c && utf8 s3
        | _ => false
        end
      else if ((240 <=? n) && (n <? 248))%N then
        match s1 with
        | String b (String c (String d s4)) =>
            is_cont b && is_cont c && is_cont d && utf8 s4
        | _ => false
        end
      else false
  end.

Definition mem (c : ascii) (chars : string) : bool :=
  existsb (Ascii.eqb c) (list_ascii_of_string chars).

(** [s] without the prefix [e], when it starts with it. *)
Fixpoint cut_prefix (e s : string) : option string :=
  match e, s with
  | EmptyString, _ => Some s
  | String a e', String b s' => if Ascii.eqb a b then cut_prefix e' s' else None
  | String _ _, EmptyString => None
  end.

(** [s] without the suffix [e], when it ends with it. *)
Fixpoint cut_suffix (e s : string) {struct s} : option string :=
  if String.eqb s e then Some EmptyString
  else match s with
       | EmptyString => None
       | String c s' => option_map (String c) (cut_suffix e s')
       end.

(** [s] cut by the first of [es] that it starts, or ends, with. *)
Fixpoint cut_any (cut : string -> string -> option string) (es : list string)
    (s : string) : option string :=
  match es with
  | [] => None
  | e :: es' =>
      match cut e s with
      | Some t => Some t
      | None => cut_any cut es' s
      end
  end.

(** Cutting for as long as there is something to cut, [n] times at most. *)
Fixpoint peel (cut : string -> option string) (n : nat) (s : string) : string :=
  match n with
  | O => s
  | S n' =>
      match cut s with
      | Some t => peel cut n' t
      | None => s
      end
  end.

(** [s.lstrip()] and [s.rstrip()]: the whitespace at one end is removed,
    one code point after the other. *)
Definition lstrip_space (s : string) : string :=
  peel (cut_any cut_prefix whitespace) (String.length s) s.

Definition rstrip_space (s : string) : string :=
  peel (cut_any cut_suffix whitespace) (String.length s) s.

(** [s] without the characters at its end of which [p] holds. *)
Fixpoint rstrip_by (p : ascii -> bool) (s : string) : string :=
  match s with
  | EmptyString => EmptyString
  | String c s' =>
      match rstrip_by p s' with
      | EmptyString => if p c then EmptyString else String c EmptyString
      | t => String c t
      end
  end.

(** [s.rstrip(chars)] *)
Definition rstrip (chars : string) (s : string) : string :=
  rstrip_by (fun c => mem c chars) s.

(** [s.strip()] *)
Definition strip (s : string) : string := lstrip_space (rstrip_space s).

(** [s.split(sep, 1)] for a one-character separator: the text before the
    first separator and, when there is one, the text after it. *)
Fixpoint split_once (sep : ascii) (s : string) : string * option string :=
  match s with
  | EmptyString => (EmptyString, None)
  | String c s' =>
      if Ascii.eqb c sep then (EmptyString, Some s')
      else let '(a, b) := split_once sep s' in (String c a, b)
  end.

(** [sub in s] *)
Fixpoint contains (sub s : string) : bool :=
  if String.prefix sub s then true
  else match s with
       | EmptyString => false
       | String _ s' => contains sub s'
       end.

(** [re.sub(pat, repl, s)] for a pattern without metacharacters: every
    occurrence met from the left is replaced and the scan resumes behind
    it.  [skip] counts the characters of a match still to be passed. *)
Fixpoint re_sub_from (pat repl : string) (skip : nat) (s : string) : string :=
  match s with
  | EmptyString => EmptyString
  | String c s' =>
      match skip with
      | S k => re_sub_from pat repl k s'
      | O =>
          if String.prefix pat s
          then repl +:+ re_sub_from pat repl (String.length pat - 1) s'
          else String c (re_sub_from pat repl 0 s')
      end
  end.

Definition re_sub (pat repl s : string) : string := re_sub_from pat repl 0 s.

(** ["".join(parts)] *)
Definition join (parts : list string) : string :=
  fold_right String.append EmptyString parts.

End Str.

(** ** Exceptions and effects *)

(** The exception classes the module meets; each derives from Python's
    [Exception].  [exn_str] is [str(ex)]. *)
Inductive exn_class :=
  | ValueError | RuntimeError | KeyError | AttributeError | OverflowError
  | HTTPError | RequestException | ParserError | InvalidIndexError.

Record exn := Exn { exn_kind : exn_class; exn_str : string }.

Inductive result (A : Type) :=
  | Ok (a : A)
  | Raise (e : exn).
Arguments Ok {A} a.
Arguments Raise {A} e.

Definition rbind {A B} (r : result A) (k : A -> result B) : result B :=
  match r with
  | Ok a => k a
  | Raise e => Raise e
  end.

Fixpoint traverse {A B} (f : A -> result B) (l : list A) : result (list B) :=
  match l with
  | [] => Ok []
  | x :: l' => rbind (f x) (fun y => rbind (traverse f l') (fun ys => Ok (y :: ys)))
  end.

(** What a run leaves behind: the URLs requested, the pauses slept and the
    lines printed, each oldest first. *)
Record world := World {
  requests : list string;
  sleeps : list float;
  stdout : list string
}.

Definition M (A : Type) : Type := world -> result A * world.

Definition ret {A} (a : A) : M A := fun w => (Ok a, w).
Definition raise {A} (e : exn) : M A := fun w => (Raise e, w).
Definition lift {A} (r : result A) : M A := fun w => (r, w).
Definition bind {A B} (m : M A) (k : A -> M B) : M B :=
  fun w =>
    match m w with
    | (Ok a, w') => k a w'
    | (Raise e, w') => (Raise e, w')
    end.

(** [try: m / except Exception as ex: ...] with the outcome handed on as a
    value. *)
Definition attempt {A} (m : M A) : M (result A) :=
  fun w => let '(r, w') := m w in (Ok r, w').

Notation "'let*' x ':=' m 'in' k" := (bind m (fun x => k))
  (at level 10, x name, m at level 100, k at level 200).

(** ** Frames *)

(** A column label: a string, an integer position (what [expand=True]
    numbers its columns with), [None], or NaN, which is what pandas holds
    and hands out for a missing label.  Labels are compared the way an
    index looks them up, NaN being equal to NaN. *)
Inductive label :=
  | LNone
  | LNaN
  | LStr (s : string)
  | LInt (n : Z).

Global Instance label_eq_dec : EqDecision label.
Proof. solve_decision. Defined.

Inductive cell :=
  | NA
  | Str (s : string)
  | Num (z : Z).

Inductive dtype := object | numeric.

Global Instance dtype_eq_dec : EqDecision dtype.
Proof. solve_decision. Defined.

Record Series := mkSeries { dtype_of : dtype; values : list cell }.

(** A frame is its columns, left to right. *)
Abbreviation DataFrame := (list (label * Series)).

Definition columns (df : DataFrame) : list label := map fst df.

Definition nrows (df : DataFrame) : nat :=
  match df with
  | [] => O
  | (_, s) :: _ => List.length (values s)
  end.

(** [pd.DataFrame()] *)
Definition pd_DataFrame : DataFrame := [].

(** [df.columns] of a freshly parsed table: a plain index, or a
    [MultiIndex] whose entries are tuples of labels, outermost first. *)
Inductive Index :=
  | FlatIndex (labels : list label)
  | MultiIndex (tuples : list (list label)).

(** What [pd.read_html(...)[0]] delivers. *)
Inductive Table :=
  | Flat (cols : list (label * Series))
  | Grouped (cols : list (list label * Series)).

Definition table_columns (t : Table) : Index :=
  match t with
  | Flat cols => FlatIndex (map fst cols)
  | Grouped cols => MultiIndex (map fst cols)
  end.

Definition table_series (t : Table) : list Series :=
  match t with
  | Flat cols => map snd cols
  | Grouped cols => map snd cols
  end.

(** [df.columns = names], the lengths agreeing. *)
Definition set_columns (t : Table) (names : list label) : DataFrame :=
  zip names (table_series t).

Definition is_Str (c : cell) : bool := match c with Str _ => true | _ => false end.
Definition is_Num (c : cell) : bool := match c with Num _ => true | _ => false end.

(** Whether [col.str] is granted: the column has dtype object and, once
    the missing cells are set aside, is empty or holds some string. *)
Definition str_accessor_ok (s : Series) : bool :=
  bool_decide (dtype_of s = object)
  && (existsb is_Str (values s) || negb (existsb is_Num (values s))).

Definition no_str_accessor : exn :=
  Exn AttributeError "Can only use .str accessor with string values!".

(** [df[key].str]: the one column of that name, fit for string methods. *)
Definition getitem_str (key : string) (df : DataFrame) : result Series :=
  match filter (fun p => p.1 = LStr key) df with
  | [] => Raise (Exn KeyError ("'" +:+ key +:+ "'"))
  | [(_, s)] => if str_accessor_ok s then Ok s else Raise no_str_accessor
  | _ => Raise (Exn AttributeError "'DataFrame' object has no attribute 'str'")
  end.

(** [.str.split(sep, n=1, expand=True)] on the cells of a column.  A cell
    that is no string gives missing values across the row. *)
Definition split_cell (sep : ascii) (c : cell) : option (string * option string) :=
  match c with
  | Str s => Some (Str.split_once sep s)
  | _ => None
  end.

Definition first_part (p : option (string * option string)) : cell :=
  match p with
  | Some (a, _) => Str a
  | None => NA
  end.

Definition second_part (p : option (string * option string)) : cell :=
  match p with
  | Some (_, Some b) => Str b
  | _ => NA
  end.

Definition has_second (p : option (string * option string)) : bool :=
  match p with
  | Some (_, Some _) => true
  | _ => false
  end.

Definition str_split_expand (sep : ascii) (s : Series) : DataFrame :=
  let parts := map (split_cell sep) (values s) in
  match parts with
  | [] => []
  | _ :: _ =>
      (LInt 0, mkSeries object (map first_part parts))
      :: (if existsb has_second parts
          then [(LInt 1, mkSeries object (map second_part parts))]
          else [])
  end.

(** [df.rename(columns=mapper)]: a label with an entry is replaced by it,
    any other label stays. *)
Fixpoint renamed (mapper : list (label * label)) (l : label) : label :=
  match mapper with
  | [] => l
  | (k, v) :: rest => if decide (k = l) then v else renamed rest l
  end.

Definition rename (mapper : list (label * label)) (df : DataFrame) : DataFrame :=
  map (fun p => (renamed mapper p.1, p.2)) df.

(** [df[key] = v] for a scalar [v]: every column of that name is
    overwritten where it stands; without one, a column is appended. *)
Definition setitem (key : label) (v : cell) (df : DataFrame) : DataFrame :=
  let col := mkSeries object (replicate (nrows df) v) in
  if bool_decide (key ∈ columns df)
  then map (fun p => if decide (p.1 = key) then (key, col) else p) df
  else df ++ [(key, col)].

(** [df.insert(0, key, v)] for a scalar [v] and a string label. *)
Definition insert0 (key : string) (v : cell) (df : DataFrame) : result DataFrame :=
  if bool_decide (LStr key ∈ columns df)
  then Raise (Exn ValueError ("cannot insert " +:+ key +:+ ", already exists"))
  else Ok ((LStr key, mkSeries object (replicate (nrows df) v)) :: df).

(** [df.drop(columns=key)] *)
Definition drop (key : string) (df : DataFrame) : result DataFrame :=
  if bool_decide (LStr key ∈ columns df)
  then Ok (filter (fun p => p.1 <> LStr key) df)
  else Raise (Exn KeyError ("['" +:+ key +:+ "'] not found in axis")).

(** [pd.concat([a, b], axis=1)] of two frames over the same rows. *)
Definition concat_axis1 (a b : DataFrame) : DataFrame := a ++ b.

(** [col.str.strip()]: strings are trimmed, anything else comes out
    missing. *)
Definition strip_cell (c : cell) : cell :=
  match c with
  | Str s => Str (Str.strip s)
  | _ => NA
  end.

(** [lambda col: col.str.strip() if col.dtype == "object" else col] *)
Definition strip_if_object (s : Series) : result Series :=
  if bool_decide (dtype_of s = object)
  then if str_accessor_ok s
       then Ok (mkSeries object (map strip_cell (values s)))
       else Raise no_str_accessor
  else Ok s.

(** [df.apply(f)], column by column. *)
Definition apply (f : Series -> result Series) (df : DataFrame) : result DataFrame :=
  traverse (fun p => rbind (f p.2) (fun s => Ok (p.1, s))) df.

(** The cells a frame holds under a label: those of its first column of
    that name, or missing values for all its rows. *)
Definition column_of (l : label) (df : DataFrame) : list cell :=
  match list_find (fun p => p.1 = l) df with
  | Some (_, (_, s)) => values s
  | None => replicate (nrows df) NA
  end.

Definition dtype_in (l : label) (df : DataFrame) : dtype :=
  match list_find (fun p => p.1 = l) df with
  | Some (_, (_, s)) => dtype_of s
  | None => numeric
  end.

(** Labels in order of first appearance. *)
Fixpoint nub (seen : list label) (l : list label) : list label :=
  match l with
  | [] => []
  | x :: l' =>
      if bool_decide (x ∈ seen) then nub seen l' else x :: nub (x :: seen) l'
  end.

(** Frames reindexed to the union of their labels and stacked in order:
    each label stands in the place of its first appearance, and a frame
    without it contributes missing values for its rows.  [pd_concat] comes
    here only with frames that have every label once. *)
Definition stacked (frames : list DataFrame) : DataFrame :=
  map (fun l =>
         (l, mkSeries
               (if existsb (fun g => bool_decide (dtype_in l g = object)) frames
                then object else numeric)
               (flat_map (column_of l) frames)))
      (nub [] (flat_map columns frames)).

(** The cells and the dtype of the column at place [i]. *)
Definition cells_at (i : nat) (df : DataFrame) : list cell :=
  match df !! i with
  | Some (_, s) => values s
  | None => []
  end.

Definition dtype_at (i : nat) (df : DataFrame) : dtype :=
  match df !! i with
  | Some (_, s) => dtype_of s
  | None => numeric
  end.

(** Frames that carry the same labels in the same order, stacked place by
    place under the labels of the first; a label that occurs twice keeps
    its two columns. *)
Definition stacked_in_place (frames : list DataFrame) : DataFrame :=
  match frames with
  | [] => []
  | first :: _ =>
      imap (fun i p =>
              (p.1, mkSeries
                      (if existsb (fun g => bool_decide (dtype_at i g = object)) frames
                       then object else numeric)
                      (flat_map (cells_at i) frames)))
           first
  end.

Definition unique_labels (df : DataFrame) : bool :=
  bool_decide (NoDup (columns df)).

Definition invalid_index : exn :=
  Exn InvalidIndexError "Reindexing only valid with uniquely valued Index objects".

(** [pd.concat(frames, ignore_index=True)].  Frames whose column indexes
    are all equal are stacked as they are.  Otherwise every frame is
    reindexed to the union of the labels, which pandas refuses for a frame
    that has a label twice. *)
Definition pd_concat (frames : list DataFrame) : result DataFrame :=
  match frames with
  | [] => Raise (Exn ValueError "No objects to concatenate")
  | first :: rest =>
      if forallb (fun g => bool_decide (columns g = columns first)) rest
      then Ok (stacked_in_place frames)
      else if forallb unique_labels frames
           then Ok (stacked frames)
           else Raise invalid_index
  end.

(** [_flatten_columns]: on a [MultiIndex] every entry is unpacked as a
    pair [(lvl0, lvl1)] and gives [lvl1] unless that is [""] or [None].
    NaN is neither: it equals no string and is not [None]. *)
Definition inner_missing (lvl1 : label) : bool :=
  match lvl1 with
  | LNone => true
  | LStr EmptyString => true
  | _ => false
  end.

Definition unpack2 (t : list label) : result (label * label) :=
  match t with
  | [lvl0; lvl1] => Ok (lvl0, lvl1)
  | _ :: _ :: _ :: _ => Raise (Exn ValueError "too many values to unpack (expected 2)")
  | _ => Raise (Exn ValueError
                  ("not enough values to unpack (expected 2, got "
                   +:+ pretty (List.length t) +:+ ")"))
  end.

Definition _flatten_columns (cols : Index) : result (list label) :=
  match cols with
  | MultiIndex tuples =>
      traverse (fun t => rbind (unpack2 t) (fun '(lvl0, lvl1) =>
                  Ok (if inner_missing lvl1 then lvl0 else lvl1))) tuples
  | FlatIndex labels => Ok labels
  end.

(** ** Pages and the server *)

(** What the code reads off a parsed page: the first [<table class=items>]
    with the outcome of [pd.read_html] on it, the [href] of every anchor
    in document order, and the text pieces under the first [<h1>]. *)
Record page := Page {
  table_items : option (result Table);
  anchors : list string;
  h1 : option (list string)
}.

(** A response: its status code, the message [raise_for_status] attaches
    to an error status, and the parsed body. *)
Record Response := mkResponse {
  status_code : Z;
  http_error_msg : string;
  soup_of : page
}.

Inductive reply :=
  | Unreachable (e : exn)
  | Answer (r : Response).

(** [element.get_text(strip=True)] *)
Definition get_text_strip (pieces : list string) : string :=
  Str.join (filter (fun s => s <> EmptyString) (map Str.strip pieces)).

Definition BASE_URL : string := "https://www.transfermarkt.us".

Definition LEAGUE_MAP : gmap string (string * string) :=
  list_to_map
    [ ("Spain", ("laliga", "ES1"));
      ("England", ("premier-league", "GB1"));
      ("Italy", ("serie-a", "IT1"));
      ("Germany", ("bundesliga", "L1"));
      ("France", ("ligue-1", "FR1")) ].

Definition league_names : list (label * label) :=
  [ (LStr "Club", LStr "Team");
    (LStr "Injury", LStr "Injury Type");
    (LStr "until", LStr "Expected Return");
    (LStr "Market Value", LStr "Market Value (€)") ].

Definition history_names : list (label * label) :=
  [ (LStr "From", LStr "Start");
    (LStr "Until", LStr "End");
    (LStr "Days", LStr "Days Missed");
    (LStr "Games missed", LStr "Games Missed");
    (LStr "Matches missed", LStr "Games Missed") ].

(** Lines 75 to 81: the two columns cut out of "Player/Position". *)
Definition split_player_position (df : DataFrame) : result DataFrame :=
  rbind (getitem_str "Player/Position" df) (fun col =>
    let split_cols :=
      rename [(LInt 0, LStr "Player"); (LInt 1, LStr "Position")]
             (str_split_expand Str.newline col) in
    Ok (if bool_decide (LStr "Position" ∈ columns split_cols)
        then split_cols
        else setitem (LStr "Position") NA split_cols)).

Definition unmapped_country : exn :=
  Exn ValueError "País não mapeado; informe slug e código manualmente.".

Definition missing_slug_or_code : exn :=
  Exn ValueError "Faltou league_slug ou league_code.".

Definition sleep_refused : exn :=
  Exn ValueError "sleep length must be non-negative".

Definition sleep_nan : exn :=
  Exn ValueError "Invalid value NaN (not a number)".

(** In the wording of CPython 3.11. *)
Definition sleep_overflow : exn :=
  Exn OverflowError "timestamp too large to convert to C _PyTime_t".

(** What [time.sleep(pause)] raises, if anything.  CPython turns the pause
    into a signed 64-bit count of nanoseconds: NaN is refused, then the
    product with 1e9, taken in floating point, has to lie from -2^63 up to
    but not including 2^63, and then it must not be negative. *)
Definition sleep_error (pause : float) : option exn :=
  if PrimFloat.is_nan pause then Some sleep_nan
  else
    let ns := PrimFloat.mul pause 1e9%float in
    if PrimFloat.leb (-9223372036854775808)%float ns
       && PrimFloat.ltb ns 9223372036854775808%float
    then if PrimFloat.ltb ns 0%float then Some sleep_refused else None
    else Some sleep_overflow.

(** Python's truth value of an optional string argument. *)
Definition truthy (o : option string) : bool :=
  match o with
  | Some (String _ _) => true
  | _ => false
  end.

Section Scraper.

(** The web: the reply to a request, given the requests made before it.
    The fixed headers and the caller's timeout are part of it. *)
Variable server : list string -> string -> reply.

(** [urlparse(u).scheme], [urlparse(u).netloc] and [urljoin]. *)
Variable urlparse_scheme : string -> string.
Variable urlparse_netloc : string -> string.
Variable urljoin : string -> string -> string.

(** [sess.get(url, headers=BASE_HEADERS, timeout=timeout)], on the
    caller's session or a fresh one: the request is recorded, and the
    server's reply is a response or the exception of a failed transport. *)
Definition sess_get (url : string) : M Response :=
  fun w =>
    let w' := World (requests w ++ [url]) (sleeps w) (stdout w) in
    match server (requests w) url with
    | Unreachable e => (Raise e, w')
    | Answer r => (Ok r, w')
    end.

(** [resp.raise_for_status()] *)
Definition raise_for_status (resp : Response) : M unit :=
  if ((400 <=? status_code resp) && (status_code resp <? 600))%Z
  then raise (Exn HTTPError (http_error_msg resp))
  else ret tt.

(** [time.sleep(pause)] *)
Definition time_sleep (pause : float) : M unit :=
  fun w =>
    match sleep_error pause with
    | Some e => (Raise e, w)
    | None => (Ok tt, World (requests w) (sleeps w ++ [pause]) (stdout w))
    end.

(** [print(line)] *)
Definition print (line : string) : M unit :=
  fun w => (Ok tt, World (requests w) (sleeps w) (stdout w ++ [line])).

(** [get_league_injuries(country_name=..., league_slug=...,
    league_code=...)]; an argument left out is [None]. *)
Definition get_league_injuries
    (country_name league_slug league_code : option string) : M DataFrame :=
  let* target :=
    (if truthy country_name
     then match LEAGUE_MAP !! default "" country_name with
          | Some (slug, code) => ret (Some slug, Some code)
          | None => raise unmapped_country
          end
     else ret (league_slug, league_code)) in
  let league_slug := fst target in
  let league_code := snd target in
  if negb (truthy league_slug) || negb (truthy league_code)
  then raise missing_slug_or_code
  else
    let url := BASE_URL +:+ "/" +:+ default "" league_slug
               +:+ "/verletztespieler/wettbewerb/" +:+ default "" league_code in
    let* resp := sess_get url in
    let* _ := raise_for_status resp in
    let soup := soup_of resp in
    match table_items soup with
    | None => raise (Exn RuntimeError "Tabela de lesões não encontrada.")
    | Some parsed =>
        let* table := lift parsed in
        let* names := lift (_flatten_columns (table_columns table)) in
        let df := set_columns table names in
        let* split_cols := lift (split_player_position df) in
        let* rest := lift (drop "Player/Position" df) in
        let df := concat_axis1 rest split_cols in
        let df := rename league_names df in
        lift (apply strip_if_object df)
    end.

(** The anchors matched by [a[href*='/profil/spieler/']]. *)
Definition select_profile_anchors (soup : page) : list string :=
  filter (fun href => Str.contains "/profil/spieler/" href = true) (anchors soup).

(** [sorted(urls)] of a set of strings. *)
Definition sorted (urls : gset string) : list string :=
  merge_sort String.le (elements urls).

(** [get_team_player_urls(team_url, pause=...)] *)
Definition get_team_player_urls (team_url : string) (pause : float) : M (list string) :=
  let* resp := sess_get team_url in
  let* _ := raise_for_status resp in
  let soup := soup_of resp in
  let anchors := select_profile_anchors soup in
  let root := urlparse_scheme team_url +:+ "://" +:+ urlparse_netloc team_url in
  let urls : gset string :=
    list_to_set (map (fun href => urljoin root (fst (Str.split_once "?" href))) anchors) in
  let* _ := time_sleep pause in
  ret (sorted urls).

(** Line 133: the URL of the history page. *)
Definition injury_url_of (player_url : string) : string :=
  Str.re_sub "/profil/" "/verletzungen/" (Str.rstrip "/" player_url).

(** [get_player_injury_history(player_url)] *)
Definition get_player_injury_history (player_url : string) : M DataFrame :=
  let injury_url := injury_url_of player_url in
  let* resp := sess_get injury_url in
  let* _ := raise_for_status resp in
  let soup := soup_of resp in
  match table_items soup with
  | None => raise (Exn RuntimeError "Histórico de lesões não encontrado.")
  | Some parsed =>
      let* table := lift parsed in
      let* names := lift (_flatten_columns (table_columns table)) in
      let df := set_columns table names in
      let df := rename history_names df in
      let* player_name :=
        match h1 soup with
        | Some pieces => ret (get_text_strip pieces)
        | None =>
            raise (Exn AttributeError
                     "'NoneType' object has no attribute 'get_text'")
        end in
      let* df := lift (insert0 "Player" (Str player_name) df) in
      let df := setitem (LStr "Profile URL") (Str player_url) df in
      lift (apply strip_if_object df)
  end.

(** [f"[WARN] falhou em {url}: {ex}"] *)
Definition warning (url : string) (ex : exn) : string :=
  "[WARN] falhou em " +:+ url +:+ ": " +:+ exn_str ex.

(** The loop of the batch.  The frame is appended before the pause, so
    it stays in [frames] when [time.sleep] raises. *)
Fixpoint history_loop (pause : float) (player_urls : list string)
    (frames : list DataFrame) : M (list DataFrame) :=
  match player_urls with
  | [] => ret frames
  | url :: rest =>
      let* fetched := attempt (get_player_injury_history url) in
      match fetched with
      | Ok df =>
          let frames := frames ++ [df] in
          let* slept := attempt (time_sleep pause) in
          match slept with
          | Ok _ => history_loop pause rest frames
          | Raise ex =>
              let* _ := print (warning url ex) in history_loop pause rest frames
          end
      | Raise ex =>
          let* _ := print (warning url ex) in history_loop pause rest frames
      end
  end.

(** [get_multiple_players_injury_history(player_urls, pause=...)] *)
Definition get_multiple_players_injury_history
    (player_urls : list string) (pause : float) : M DataFrame :=
  let* frames := history_loop pause player_urls [] in
  match frames with
  | _ :: _ => lift (pd_concat frames)
  | [] => ret pd_DataFrame
  end.

End Scraper.

(** ** The batch, URL by URL *)

(** What the history of one player comes to when [past] lists the requests
    already made. *)
Definition history_of (server : list string -> string -> reply)
    (past : list string) (player_url : string) : result DataFrame :=
  fst (get_player_injury_history server player_url (World past [] [])).

(** The outcome of every URL of a batch, in input order. *)
Fixpoint outcomes (server : list string -> string -> reply)
    (past : list string) (player_urls : list string)
    : list (string * result DataFrame) :=
  match player_urls with
  | [] => []
  | url :: rest =>
      (url, history_of server past url)
      :: outcomes server (past ++ [injury_url_of url]) rest
  end.

Definition successes (outs : list (string * result DataFrame)) : list DataFrame :=
  flat_map (fun o => match o.2 with Ok df => [df] | Raise _ => [] end) outs.

Definition failures (outs : list (string * result DataFrame)) : list (string * exn) :=
  flat_map (fun o => match o.2 with Ok _ => [] | Raise ex => [(o.1, ex)] end) outs.

(** The pauses a batch takes: one behind every success, unless
    [time.sleep] refuses the pause. *)
Definition pauses (pause : float) (outs : list (string * result DataFrame)) : list float :=
  flat_map (fun o => match o.2, sleep_error pause with
                     | Ok _, None => [pause]
                     | _, _ => []
                     end) outs.

(** The lines a batch prints: one for a URL whose extraction raised, and
    one for a URL whose pause was refused. *)
Definition warnings (pause : float) (outs : list (string * result DataFrame)) : list string :=
  flat_map (fun o => match o.2, sleep_error pause with
                     | Raise ex, _ => [warning o.1 ex]
                     | Ok _, Some ex => [warning o.1 ex]
                     | Ok _, None => []
                     end) outs.

(** Line 183 on the tables of a batch. *)
Definition batch_table (frames : list DataFrame) : result DataFrame :=
  match frames with
  | _ :: _ => pd_concat frames
  | [] => Ok pd_DataFrame
  end.

(** ** The words of the specification *)

(** [pat] occurs in [s]. *)
Definition occurs (pat s : string) : Prop :=
  exists u v, s = u +:+ pat +:+ v.

(** [t] is [s] with every occurrence of [pat], taken from the left and
    without overlap, replaced by [repl]. *)
Inductive Replaced (pat repl : string) : string -> string -> Prop :=
  | Replaced_none s :
      ~ occurs pat s -> Replaced pat repl s s
  | Replaced_first u v v' :
      (forall u' w', u +:+ pat +:+ v = u' +:+ pat +:+ w' ->
                     String.length u <= String.length u') ->
      Replaced pat repl v v' ->
      Replaced pat repl (u +:+ pat +:+ v) (u +:+ repl +:+ v').

Fixpoint slashes (n : nat) : string :=
  match n with
  | O => EmptyString
  | S n' => String "/" (slashes n')
  end.

(** [t] is [s] without its trailing slashes. *)
Definition Trimmed (s t : string) : Prop :=
  (exists n, s = t +:+ slashes n) /\ (forall t', t <> t' +:+ "/").

(** A string without whitespace at either end: it neither starts nor ends
    with the bytes of a code point that counts as whitespace. *)
Definition clean (s : string) : Prop :=
  forall e, e ∈ Str.whitespace ->
    (forall t, s <> e +:+ t) /\ (forall t, s <> t +:+ e).

(** ** Pages used in the examples *)

Definition text_column (name : string) (cells : list cell) : label * Series :=
  (LStr name, mkSeries object cells).

Definition knee_history : Table :=
  Flat [ text_column "Season" [Str "21/22"; Str "20/21"];
         text_column "Injury" [Str " Knee"; Str "Flu"];
         (LStr "Days", mkSeries numeric [Num 30; Num 4]) ].

Definition history_page (name : string) : page :=
  Page (Some (Ok knee_history)) [] (Some [" " +:+ name; " "]).

(** Players 1 and 3 have a history page; any other request times out. *)
Definition history_server (past : list string) (url : string) : reply :=
  if decide (url = "https://t.us/a/verletzungen/spieler/1")
  then Answer (mkResponse 200 "" (history_page "A. One"))
  else if decide (url = "https://t.us/c/verletzungen/spieler/3")
  then Answer (mkResponse 200 "" (history_page "C. Three"))
  else Unreachable (Exn RequestException "timed out").

(** Every page is the same history page, whatever the URL. *)
Definition lenient_server (past : list string) (url : string) : reply :=
  Answer (mkResponse 200 "" (history_page "A. One")).

Definition league_table : Table :=
  Grouped
    [ ([LStr "Player/Position"; LStr ""],
       mkSeries object [Str ("J. Doe" +:+ String Str.newline "Midfielder"); Str "K. Roe"]);
      ([LStr "Details"; LStr "Club"], mkSeries object [Str "FC"; NA]) ].

Definition league_page : page :=
  Page (Some (Ok league_table))
       ["/a/profil/spieler/123?x=1"; "/a/profil/spieler/123"; "/impressum"]
       None.

Definition league_server (past : list string) (url : string) : reply :=
  Answer (mkResponse 200 "" league_page).

(** A league table in which no "Player/Position" value has a newline. *)
Definition plain_league_table : Table :=
  Flat [ text_column "Player/Position" [Str "J. Doe"; Str " K. Roe"];
         text_column "Club" [Str "FC"; NA] ].

Definition plain_league_server (past : list string) (url : string) : reply :=
  Answer (mkResponse 200 "" (Page (Some (Ok plain_league_table)) [] None)).

(** Stand-ins for [urlparse] and [urljoin] on the URLs of the examples:
    a team page of https://t.us and links that are absolute paths. *)
Definition https_scheme (url : string) : string := "https".
Definition t_us_netloc (url : string) : string := "t.us".
Definition join_path (root href : string) : string := root +:+ href.

Definition offline (past : list string) (url : string) : reply :=
  Unreachable (Exn RequestException "timed out").

Definition fresh : world := World [] [] [].

(** A page that answers with status 404. *)
Definition not_found_server (past : list string) (url : string) : reply :=
  Answer (mkResponse 404 "404 Client Error: Not Found" (Page None [] None)).

(** A page without a table of class items. *)
Definition tableless_server (past : list string) (url : string) : reply :=
  Answer (mkResponse 200 "" (Page None [] (Some ["A. One"]))).

(** A history table that already has a column "Player", and one with
    both spellings of the games column. *)
Definition named_history : Table :=
  Flat [ text_column "Player" [Str "A. One"]; text_column "Injury" [Str "Knee"] ].

Definition named_server (past : list string) (url : string) : reply :=
  Answer (mkResponse 200 "" (Page (Some (Ok named_history)) [] (Some ["A. One"]))).

Definition two_spellings : list (label * Series) :=
  [ text_column "From" [Str "Jan 1"]; text_column "Games missed" [Str "3"];
    text_column "Matches missed" [Str "3"]; text_column "Season" [Str "21/22"] ].

(** The league page with its anchors in another order, one of them twice. *)
Definition shuffled_page : page :=
  Page (Some (Ok league_table))
       ["/impressum"; "/a/profil/spieler/123"; "/a/profil/spieler/123?x=1";
        "/a/profil/spieler/123"]
       None.

Definition shuffled_server (past : list string) (url : string) : reply :=
  Answer (mkResponse 200 "" shuffled_page).

(** A history table with both spellings of the games column; the server
    has it for player 4 and the usual table for everybody else. *)
Definition both_spellings_history : Table :=
  Flat [ text_column "Season" [Str "21/22"];
         (LStr "Games missed", mkSeries numeric [Num 3]);
         (LStr "Matches missed", mkSeries numeric [Num 4]) ].

Definition spellings_server (past : list string) (url : string) : reply :=
  if decide (url = "https://t.us/d/verletzungen/spieler/4")
  then Answer (mkResponse 200 ""
                 (Page (Some (Ok both_spellings_history)) [] (Some ["D. Four"])))
  else Answer (mkResponse 200 "" (history_page "A. One")).

(** Every row of a frame has a cell in every column. *)
Definition rectangular (df : list (label * Series)) : Prop :=
  Forall (fun p => List.length (values p.2) = nrows df) df.

(** * Properties *)

(** ** Strings *)

Example rstrip_trailing_slashes : Str.rstrip "/" "a/b//" = "a/b".
Proof. reflexivity. Qed.

Example strip_blanks : Str.strip "  J. Doe " = "J. Doe".
Proof. reflexivity. Qed.

Example split_query :
  Str.split_once "?" "/profil/spieler/123?x=1" = ("/profil/spieler/123", Some "x=1").
Proof. reflexivity. Qed.

Example re_sub_every_occurrence :
  Str.re_sub "/profil/" "/verletzungen/" "/profil/x/profil/y" = "/verletzungen/x/verletzungen/y".
Proof. reflexivity. Qed.

Example get_text_strip_pieces : get_text_strip [" J. "; "  "; "Doe "] = "J.Doe".
Proof. reflexivity. Qed.

Lemma app_cons c (a b : string) : String c a +:+ b = String c (a +:+ b).
Proof. reflexivity. Qed.

Lemma app_empty_l (b : string) : "" +:+ b = b.
Proof. reflexivity. Qed.

Lemma app_empty_r (a : string) : a +:+ "" = a.
Proof. induction a as [|c a IH]; [done|]. by rewrite app_cons, IH. Qed.

Lemma app_assoc_str (a b c : string) : (a +:+ b) +:+ c = a +:+ b +:+ c.
Proof. induction a as [|x a IH]; [done|]. by rewrite !app_cons, IH. Qed.

Lemma length_app_str (a b : string) :
  String.length (a +:+ b) = String.length a + String.length b.
Proof. induction a as [|x a IH]; [done|]. rewrite app_cons. simpl. by rewrite IH. Qed.

Lemma prefix_app (pat s : string) :
  String.prefix pat s = true <-> exists v, s = pat +:+ v.
Proof.
  revert s. induction pat as [|c pat IH]; intros s.
  - split; [intros _; exists s; done|intros _]. by destruct s.
  - destruct s as [|d s]; simpl.
    + split; [done|]. intros [v Hv]. by rewrite app_cons in Hv.
    + destruct (ascii_dec c d) as [->|Hcd].
      * rewrite IH. split; intros [v Hv]; exists v.
        -- by rewrite app_cons, Hv.
        -- rewrite app_cons in Hv. by simplify_eq.
      * split; [done|]. intros [v Hv]. rewrite app_cons in Hv. by simplify_eq.
Qed.

(** *** Splitting at the first separator *)

Lemma split_once_found sep (a b : string) :
  Str.mem sep a = false ->
  Str.split_once sep (a +:+ String sep b) = (a, Some b).
Proof.
  induction a as [|c a IH]; intros Hmem.
  - rewrite app_empty_l. simpl. by rewrite Ascii.eqb_refl.
  - rewrite app_cons. simpl.
    unfold Str.mem in Hmem. simpl in Hmem. apply orb_false_iff in Hmem as [Hc Ha].
    rewrite Ascii.eqb_sym, Hc. by rewrite (IH Ha).
Qed.

Lemma split_once_missing sep (s : string) :
  Str.mem sep s = false -> Str.split_once sep s = (s, None).
Proof.
  induction s as [|c s IH]; intros Hmem; [done|].
  simpl. unfold Str.mem in Hmem. simpl in Hmem.
  apply orb_false_iff in Hmem as [Hc Hs].
  rewrite Ascii.eqb_sym, Hc. by rewrite (IH Hs).
Qed.

Lemma split_once_fst_no_sep sep (s : string) :
  Str.mem sep (Str.split_once sep s).1 = false.
Proof.
  induction s as [|c s IH]; [done|]. simpl.
  destruct (Ascii.eqb c sep) eqn:Hc; [done|].
  destruct (Str.split_once sep s) as [a b]. simpl in *.
  unfold Str.mem in *. simpl. by rewrite Ascii.eqb_sym, Hc, IH.
Qed.

(** *** Trimming *)

Example strip_no_break_space :
  Str.strip (Str.encode 160 +:+ "J. Doe" +:+ Str.encode 8195 +:+ " ") = "J. Doe".
Proof. reflexivity. Qed.

Lemma cut_prefix_spec (e s t : string) : Str.cut_prefix e s = Some t <-> s = e +:+ t.
Proof.
  revert s. induction e as [|a e IH]; intros s; simpl.
  - rewrite app_empty_l. split; [by intros [= ->]|by intros ->].
  - destruct s as [|b s]; [by rewrite app_cons|].
    rewrite app_cons. destruct (Ascii.eqb a b) eqn:Hab.
    + apply Ascii.eqb_eq in Hab as ->. rewrite IH. split; [by intros ->|by intros [= ->]].
    + split; [done|]. intros [= -> _]. by rewrite Ascii.eqb_refl in Hab.
Qed.

Lemma cut_suffix_unfold (e s : string) :
  Str.cut_suffix e s
  = if String.eqb s e then Some ""
    else match s with
         | EmptyString => None
         | String c s' => option_map (String c) (Str.cut_suffix e s')
         end.
Proof. by destruct s. Qed.

Lemma cut_suffix_spec (e s t : string) : Str.cut_suffix e s = Some t <-> s = t +:+ e.
Proof.
  revert t. induction s as [|c s IH]; intros t; rewrite cut_suffix_unfold.
  - destruct (String.eqb "" e) eqn:Heq.
    + apply String.eqb_eq in Heq as <-. split; [by intros [= <-]|]. by destruct t.
    + apply String.eqb_neq in Heq. split; [done|].
      destruct t; [by rewrite app_empty_l|by rewrite app_cons].
  - destruct (String.eqb (String c s) e) eqn:Heq.
    + apply String.eqb_eq in Heq as <-. split; [by intros [= <-]|].
      intros Ht. apply (f_equal String.length) in Ht. rewrite length_app_str in Ht.
      destruct t; [done|simpl in Ht; lia].
    + apply String.eqb_neq in Heq. split.
      * destruct (Str.cut_suffix e s) as [t'|] eqn:Hcut; [|done].
        intros [= <-]. rewrite app_cons. f_equal. by apply IH.
      * destruct t as [|d t]; [by rewrite app_empty_l|].
        rewrite app_cons. intros [= -> Hs]. apply IH in Hs. by rewrite Hs.
Qed.

Lemma cut_any_Some cut (es : list string) (s t : string) :
  Str.cut_any cut es s = Some t -> exists e, e ∈ es /\ cut e s = Some t.
Proof.
  induction es as [|e es IH]; simpl; [done|].
  destruct (cut e s) as [t'|] eqn:Hcut.
  - intros [= ->]. exists e. split; [constructor|done].
  - intros (e' & Hin & He')%IH. exists e'. split; [by constructor|done].
Qed.

Lemma cut_any_None cut (es : list string) (s : string) :
  Str.cut_any cut es s = None <-> forall e, e ∈ es -> cut e s = None.
Proof.
  induction es as [|e es IH]; simpl.
  - split; [by intros _ e ?%elem_of_nil|done].
  - destruct (cut e s) as [t'|] eqn:Hcut.
    + split; [done|]. intros Hall. rewrite Hall in Hcut; [done|constructor].
    + rewrite IH. split.
      * intros Hall e' [->|Hin]%elem_of_cons; [done|by apply Hall].
      * intros Hall e' Hin. apply Hall. by constructor.
Qed.

Lemma peel_None cut (n : nat) (s : string) : cut s = None -> Str.peel cut n s = s.
Proof. intros Hcut. destruct n; simpl; [done|by rewrite Hcut]. Qed.

Lemma peel_fixed cut (n : nat) (s : string) :
  (forall s t, cut s = Some t -> String.length t < String.length s) ->
  String.length s <= n -> cut (Str.peel cut n s) = None.
Proof.
  intros Hshorter. revert s. induction n as [|n IH]; intros s Hlen; simpl.
  - destruct (cut s) as [t|] eqn:Hcut; [|done]. apply Hshorter in Hcut. lia.
  - destruct (cut s) as [t|] eqn:Hcut; [|done].
    apply IH. apply Hshorter in Hcut. lia.
Qed.

Lemma peel_preserves (P : string -> Prop) cut (n : nat) (s : string) :
  (forall s t, cut s = Some t -> P s -> P t) -> P s -> P (Str.peel cut n s).
Proof.
  intros Hstep. revert s. induction n as [|n IH]; intros s Hs; simpl; [done|].
  destruct (cut s) as [t|] eqn:Hcut; [|done]. apply IH. by apply (Hstep s).
Qed.

Ltac each_blank tac :=
  let ws := eval vm_compute in Str.whitespace in
  change Str.whitespace with ws;
  repeat (apply Forall_cons; split; [tac|]); constructor.

(** Every blank is the encoding of one code point: a byte that opens a
    sequence and the continuation bytes it announces. *)
Lemma whitespace_single :
  Forall (fun e =>
            (exists a r, e = String a r /\ Str.is_cont a = false
                         /\ forallb Str.is_cont (list_ascii_of_string r) = true)
            /\ forall t, Str.utf8 (e +:+ t) = Str.utf8 t)
         Str.whitespace.
Proof.
  each_blank ltac:(split; [eexists _, _; split; [reflexivity|split; reflexivity]
                          |intros t; reflexivity]).
Qed.

Lemma whitespace_inv (e : string) :
  e ∈ Str.whitespace ->
  (exists a r, e = String a r /\ Str.is_cont a = false
               /\ forallb Str.is_cont (list_ascii_of_string r) = true)
  /\ forall t, Str.utf8 (e +:+ t) = Str.utf8 t.
Proof. intros He. pose proof whitespace_single as Hall. rewrite Forall_forall in Hall. by apply Hall. Qed.

Lemma lcut_shorter (s t : string) :
  Str.cut_any Str.cut_prefix Str.whitespace s = Some t -> String.length t < String.length s.
Proof.
  intros (e & He & Hcut)%cut_any_Some. apply cut_prefix_spec in Hcut as ->.
  destruct (whitespace_inv e He) as [(a & r & -> & _) _].
  rewrite length_app_str. simpl. lia.
Qed.

Lemma rcut_shorter (s t : string) :
  Str.cut_any Str.cut_suffix Str.whitespace s = Some t -> String.length t < String.length s.
Proof.
  intros (e & He & Hcut)%cut_any_Some. apply cut_suffix_spec in Hcut as ->.
  destruct (whitespace_inv e He) as [(a & r & -> & _) _].
  rewrite length_app_str. simpl. lia.
Qed.

Lemma clean_cuts (s : string) :
  clean s
  <-> Str.cut_any Str.cut_prefix Str.whitespace s = None
      /\ Str.cut_any Str.cut_suffix Str.whitespace s = None.
Proof.
  rewrite !cut_any_None. split.
  - intros Hclean. split; intros e He.
    + destruct (Str.cut_prefix e s) as [t|] eqn:Hcut; [|done].
      apply cut_prefix_spec in Hcut. by destruct (proj1 (Hclean e He) t).
    + destruct (Str.cut_suffix e s) as [t|] eqn:Hcut; [|done].
      apply cut_suffix_spec in Hcut. by destruct (proj2 (Hclean e He) t).
  - intros [Hl Hr] e He. split; intros t Heq.
    + apply cut_prefix_spec in Heq. by rewrite (Hl e He) in Heq.
    + apply cut_suffix_spec in Heq. by rewrite (Hr e He) in Heq.
Qed.

Lemma strip_clean (s : string) : clean (Str.strip s).
Proof.
  apply clean_cuts. unfold Str.strip, Str.lstrip_space. split.
  - apply peel_fixed; [apply lcut_shorter|done].
  - apply (peel_preserves
             (fun x => Str.cut_any Str.cut_suffix Str.whitespace x = None)).
    + intros x t (e & He & Hcut)%cut_any_Some Hx. apply cut_prefix_spec in Hcut as ->.
      destruct (Str.cut_any Str.cut_suffix Str.whitespace t) as [t'|] eqn:Ht; [|done].
      apply cut_any_Some in Ht as (e' & He' & Hcut').
      apply cut_suffix_spec in Hcut' as ->.
      rewrite cut_any_None in Hx. specialize (Hx e' He').
      assert (Str.cut_suffix e' (e +:+ t' +:+ e') = Some (e +:+ t')) as Hyes
        by (apply cut_suffix_spec; by rewrite app_assoc_str).
      congruence.
    + unfold Str.rstrip_space. apply peel_fixed; [apply rcut_shorter|done].
Qed.

Lemma clean_strip (s : string) : clean s -> Str.strip s = s.
Proof.
  intros [Hl Hr]%clean_cuts. unfold Str.strip, Str.lstrip_space, Str.rstrip_space.
  by rewrite (peel_None _ _ _ Hr), (peel_None _ _ _ Hl).
Qed.

(** *** Trimming and the framing of UTF-8 *)

Lemma utf8_cont c (s : string) : Str.is_cont c = true -> Str.utf8 (String c s) = false.
Proof.
  unfold Str.is_cont. cbv zeta. intros [H1 H2]%andb_true_iff.
  apply N.leb_le in H1. apply N.ltb_lt in H2. cbn [Str.utf8]. cbv zeta.
  assert ((N_of_ascii c <? 128)%N = false) as -> by (apply N.ltb_ge; lia).
  assert ((192 <=? N_of_ascii c)%N = false) as -> by (apply N.leb_gt; lia).
  assert ((224 <=? N_of_ascii c)%N = false) as -> by (apply N.leb_gt; lia).
  assert ((240 <=? N_of_ascii c)%N = false) as -> by (apply N.leb_gt; lia).
  done.
Qed.

Ltac utf8_head c :=
  cbn [Str.utf8] in *; cbv zeta in *;
  destruct (N_of_ascii c <? 128)%N;
  [|destruct ((192 <=? N_of_ascii c) && (N_of_ascii c <? 224))%N;
    [|destruct ((224 <=? N_of_ascii c) && (N_of_ascii c <? 240))%N;
      [|destruct ((240 <=? N_of_ascii c) && (N_of_ascii c <? 248))%N]]].

(** Behind well-framed bytes the framing starts afresh. *)
Lemma utf8_app_bounded (n : nat) :
  forall a b, String.length a <= n -> Str.utf8 a = true ->
              Str.utf8 (a +:+ b) = Str.utf8 b.
Proof.
  induction n as [|n IH]; intros a b Hlen Ha.
  - destruct a; [done|simpl in Hlen; lia].
  - destruct a as [|c a]; [done|]. rewrite app_cons. utf8_head c.
    + apply IH; [simpl in Hlen; lia|done].
    + destruct a as [|c1 a]; [done|]. rewrite app_cons.
      apply andb_true_iff in Ha as [-> Ha]. apply IH; [simpl in Hlen; lia|done].
    + destruct a as [|c1 [|c2 a]]; [done..|]. rewrite !app_cons.
      apply andb_true_iff in Ha as [[-> ->]%andb_true_iff Ha].
      apply IH; [simpl in Hlen; lia|done].
    + destruct a as [|c1 [|c2 [|c3 a]]]; [done..|]. rewrite !app_cons.
      apply andb_true_iff in Ha as [[[-> ->]%andb_true_iff ->]%andb_true_iff Ha].
      apply IH; [simpl in Hlen; lia|done].
    + done.
Qed.

Lemma utf8_app (a b : string) :
  Str.utf8 a = true -> Str.utf8 (a +:+ b) = Str.utf8 b.
Proof. by apply (utf8_app_bounded (String.length a)). Qed.

Ltac cont_clash :=
  repeat match goal with
         | H : _ && _ = true |- _ => apply andb_true_iff in H as [? ?]
         | H : forall c r, String ?x ?y = String c r -> Str.is_cont c = false |- _ =>
             specialize (H x y eq_refl)
         end;
  congruence.

(** Bytes in front of a byte that opens a sequence are framed on their
    own. *)
Lemma utf8_front_bounded (n : nat) :
  forall t u, String.length t <= n ->
              (forall c r, u = String c r -> Str.is_cont c = false) ->
              Str.utf8 (t +:+ u) = true -> Str.utf8 t = true.
Proof.
  induction n as [|n IH]; intros t u Hlen Hu Htu.
  - destruct t; [done|simpl in Hlen; lia].
  - destruct t as [|c t]; [done|]. rewrite app_cons in Htu. utf8_head c.
    + apply (IH t u); [simpl in Hlen; lia|done..].
    + destruct t as [|c1 t].
      { rewrite app_empty_l in Htu. destruct u as [|x u]; [done|]. cont_clash. }
      rewrite app_cons in Htu. apply andb_true_iff in Htu as [-> Htu].
      apply (IH t u); [simpl in Hlen; lia|done..].
    + destruct t as [|c1 [|c2 t]].
      { rewrite app_empty_l in Htu. destruct u as [|x [|y u]]; [done|done|]. cont_clash. }
      { rewrite app_cons, app_empty_l in Htu. destruct u as [|x u]; [done|]. cont_clash. }
      rewrite !app_cons in Htu.
      apply andb_true_iff in Htu as [[-> ->]%andb_true_iff Htu].
      apply (IH t u); [simpl in Hlen; lia|done..].
    + destruct t as [|c1 [|c2 [|c3 t]]].
      { rewrite app_empty_l in Htu. destruct u as [|x [|y [|z u]]]; [done..|]. cont_clash. }
      { rewrite app_cons, app_empty_l in Htu. destruct u as [|x [|y u]]; [done..|]. cont_clash. }
      { rewrite !app_cons, app_empty_l in Htu. destruct u as [|x u]; [done|]. cont_clash. }
      rewrite !app_cons in Htu.
      apply andb_true_iff in Htu as [[[-> ->]%andb_true_iff ->]%andb_true_iff Htu].
      apply (IH t u); [simpl in Hlen; lia|done..].
    + done.
Qed.

Lemma strip_utf8 (s : string) : Str.utf8 s = true -> Str.utf8 (Str.strip s) = true.
Proof.
  intros Hs. unfold Str.strip, Str.lstrip_space, Str.rstrip_space.
  apply (peel_preserves (fun x => Str.utf8 x = true)).
  { intros x t (e & He & Hcut)%cut_any_Some Hx. apply cut_prefix_spec in Hcut as ->.
    by rewrite (proj2 (whitespace_inv e He)) in Hx. }
  apply (peel_preserves (fun x => Str.utf8 x = true)); [|done].
  intros x t (e & He & Hcut)%cut_any_Some Hx. apply cut_suffix_spec in Hcut as ->.
  destruct (whitespace_inv e He) as [(a & r & -> & Ha & _) _].
  apply (utf8_front_bounded (String.length t) t (String a r)); [done| |done].
  by intros c r' [= <- _].
Qed.

Lemma app_eq_app (a b c d : string) :
  a +:+ b = c +:+ d ->
  (exists k, c = a +:+ k /\ b = k +:+ d)
  \/ (exists k, k <> "" /\ a = c +:+ k /\ d = k +:+ b).
Proof.
  revert c. induction a as [|x a IH]; intros c Heq.
  - left. exists c. by rewrite app_empty_l in *.
  - destruct c as [|y c].
    + right. exists (String x a). by rewrite app_empty_l in *.
    + rewrite !app_cons in Heq. injection Heq as -> Heq.
      destruct (IH c Heq) as [(k & -> & ->)|(k & Hk & -> & ->)].
      * left. by exists k.
      * right. by exists k.
Qed.

Lemma all_cont_tail (a b : string) c :
  forallb Str.is_cont (list_ascii_of_string (a +:+ String c b)) = true ->
  Str.is_cont c = true.
Proof.
  induction a as [|x a IH]; simpl.
  - by intros [? _]%andb_true_iff.
  - intros [_ ?]%andb_true_iff. by apply IH.
Qed.

(** A piece of a blank that is cut off behind its first byte starts with
    a continuation byte. *)
Lemma blank_rest (e k rest : string) :
  e ∈ Str.whitespace -> k <> "" -> rest <> "" -> e = k +:+ rest ->
  exists c r, rest = String c r /\ Str.is_cont c = true.
Proof.
  intros He Hk Hrest Heq.
  destruct (whitespace_inv e He) as [(a & r & -> & _ & Hr) _].
  destruct k as [|x k]; [done|]. rewrite app_cons in Heq. injection Heq as _ ->.
  destruct rest as [|c rest]; [done|]. exists c, rest. split; [done|].
  by apply (all_cont_tail k rest).
Qed.

Lemma join_nonempty (s : string) (parts : list string) :
  s <> "" -> Str.join (s :: parts) <> "".
Proof. destruct s; [done|]. simpl. by rewrite app_cons. Qed.

Lemma join_clean (parts : list string) :
  Forall (fun s => s <> "" /\ clean s /\ Str.utf8 s = true) parts -> clean (Str.join parts).
Proof.
  intros Hparts e He. split.
  - intros t Heq. destruct Hparts as [|x rest (Hx & Hclean & Hutf) _].
    { destruct (whitespace_inv e He) as [(a & r & -> & _) _]. by rewrite app_cons in Heq. }
    cbn [Str.join fold_right] in Heq. fold (Str.join rest) in Heq.
    apply app_eq_app in Heq as [(k & Hk & _)|(k & _ & Hk & _)].
    + destruct (decide (k = "")) as [->|Hne].
      * rewrite app_empty_r in Hk. subst e.
        apply (proj2 (Hclean x He) ""). by rewrite app_empty_l.
      * destruct (blank_rest e x k He Hx Hne Hk) as (c & r & -> & Hc).
        assert (Str.utf8 e = true) as Hframed.
        { rewrite <-(app_empty_r e). by rewrite (proj2 (whitespace_inv e He)). }
        rewrite Hk, (utf8_app _ _ Hutf), (utf8_cont _ _ Hc) in Hframed. done.
    + by destruct (proj1 (Hclean e He) k).
  - induction Hparts as [|x rest (Hx & Hclean & Hutf) Hrest IH]; intros t Heq.
    { destruct (whitespace_inv e He) as [(a & r & -> & _) _].
      destruct t; [by rewrite app_empty_l in Heq|by rewrite app_cons in Heq]. }
    cbn [Str.join fold_right] in Heq. fold (Str.join rest) in Heq.
    destruct rest as [|y rest].
    { simpl in Heq. rewrite app_empty_r in Heq. by destruct (proj2 (Hclean e He) t). }
    apply Forall_cons in Hrest as [(Hy & _ & Hyutf) _].
    apply app_eq_app in Heq as [(k & _ & Hk)|(k & Hne & _ & Hk)].
    + by apply (IH k).
    + destruct (blank_rest e k (Str.join (y :: rest)) He Hne (join_nonempty y rest Hy) Hk)
        as (c & r & Hjoin & Hc).
      cbn [Str.join fold_right] in Hjoin. destruct y as [|d y]; [done|].
      rewrite app_cons in Hjoin. injection Hjoin as -> _.
      by rewrite (utf8_cont _ _ Hc) in Hyutf.
Qed.

(** What [get_text(strip=True)] gives has no whitespace at its ends. *)
Lemma get_text_strip_clean (pieces : list string) :
  Forall (fun p => Str.utf8 p = true) pieces ->
  Str.strip (get_text_strip pieces) = get_text_strip pieces.
Proof.
  intros Hframed. apply clean_strip, join_clean. unfold get_text_strip.
  apply Forall_forall. intros s Hs.
  apply list_elem_of_filter in Hs as [Hne Hs].
  apply list_elem_of_fmap in Hs as (s0 & -> & Hs0).
  rewrite Forall_forall in Hframed.
  split; [done|]. split; [apply strip_clean|by apply strip_utf8, Hframed].
Qed.

(** *** Trailing slashes *)

Lemma mem_slash c : Str.mem c "/" = true -> c = "/"%char.
Proof.
  unfold Str.mem. simpl. rewrite orb_false_r. by intros ?%Ascii.eqb_eq.
Qed.

Lemma rstrip_slashes (s : string) : Trimmed s (Str.rstrip "/" s).
Proof.
  unfold Str.rstrip. induction s as [|c s [[n Hn] Hend]].
  - split; [by exists 0|]. intros [|d t']; done.
  - simpl. destruct (Str.rstrip_by _ s) as [|d t] eqn:Hs.
    + rewrite app_empty_l in Hn. destruct (Str.mem c "/") eqn:Hc.
      * apply mem_slash in Hc as ->. split; [|intros [|d t']; done].
        exists (S n). rewrite app_empty_l. simpl. by rewrite <-Hn.
      * split.
        { exists n. by rewrite app_cons, app_empty_l, <-Hn. }
        intros [|d t']; rewrite ?app_cons, ?app_empty_l; intros [= Heq]; subst.
        { by vm_compute in Hc. }
        by destruct t'.
    + split.
      { exists n. by rewrite app_cons, <-Hn. }
      intros [|e t']; rewrite ?app_cons, ?app_empty_l; [done|].
      intros [= Heq1 Heq2]. by apply (Hend t').
Qed.

(** *** Replacing a pattern *)

Lemma re_sub_from_skip pat repl (a v : string) :
  Str.re_sub_from pat repl (String.length a) (a +:+ v) = Str.re_sub pat repl v.
Proof. induction a as [|c a IH]; [done|]. by rewrite app_cons. Qed.

Lemma re_sub_match pat repl c (v : string) :
  Str.re_sub (String c pat) repl (String c pat +:+ v)
  = repl +:+ Str.re_sub (String c pat) repl v.
Proof.
  unfold Str.re_sub at 1. rewrite app_cons.
  cbn [Str.re_sub_from].
  assert (String.prefix (String c pat) (String c (pat +:+ v)) = true) as ->.
  { apply prefix_app. by exists v. }
  f_equal.
  replace (String.length (String c pat) - 1) with (String.length pat) by (simpl; lia).
  apply re_sub_from_skip.
Qed.

Lemma re_sub_step pat repl c (s : string) :
  String.prefix pat (String c s) = false ->
  Str.re_sub pat repl (String c s) = String c (Str.re_sub pat repl s).
Proof. intros Hp. unfold Str.re_sub. cbn [Str.re_sub_from]. by rewrite Hp. Qed.

Lemma re_sub_Replaced_bounded pat repl (n : nat) :
  pat <> "" ->
  forall s, String.length s <= n -> Replaced pat repl s (Str.re_sub pat repl s).
Proof.
  intros Hpat. induction n as [|n IH]; intros s Hlen.
  - destruct s; [|simpl in Hlen; lia].
    apply Replaced_none. intros (u & v & Huv).
    destruct u; [|done]. by destruct pat.
  - destruct s as [|c s].
    { apply Replaced_none. intros (u & v & Huv). destruct u; [|done]. by destruct pat. }
    destruct (String.prefix pat (String c s)) eqn:Hp.
    + apply prefix_app in Hp as [v Hv]. rewrite Hv.
      destruct pat as [|d pat]; [done|].
      rewrite re_sub_match.
      rewrite <-(app_empty_l (String d pat +:+ v)), <-(app_empty_l (repl +:+ _)).
      apply Replaced_first; [simpl; lia|].
      apply IH. apply (f_equal String.length) in Hv.
      rewrite length_app_str in Hv. simpl in *. lia.
    + rewrite re_sub_step by done.
      assert (String.length s <= n) as Hs by (simpl in Hlen; lia).
      specialize (IH s Hs). clear Hs Hlen.
      remember (Str.re_sub pat repl s) as t eqn:Ht. clear Ht.
      destruct IH as [s Hnone | u v v' Hleft Hrest].
      * apply Replaced_none.
        intros ([|e u] & w & Huw).
        -- rewrite app_empty_l in Huw.
           assert (String.prefix pat (String c s) = true) as Hyes
             by (apply prefix_app; by exists w).
           congruence.
        -- rewrite app_cons in Huw. injection Huw as -> ->.
           apply Hnone. by exists u, w.
      * rewrite <-!app_cons. apply Replaced_first; [|done].
        intros [|e u'] w' Huw.
        -- rewrite app_empty_l, app_cons in Huw.
           assert (String.prefix pat (String c (u +:+ pat +:+ v)) = true) as Hyes
             by (apply prefix_app; by exists w').
           congruence.
        -- rewrite !app_cons in Huw. injection Huw as -> Huw.
           apply Hleft in Huw. simpl. lia.
Qed.

Lemma re_sub_Replaced pat repl (s : string) :
  pat <> "" -> Replaced pat repl s (Str.re_sub pat repl s).
Proof. intros Hpat. by apply (re_sub_Replaced_bounded pat repl (String.length s)). Qed.

Lemma app_inv_length (a b c d : string) :
  a +:+ b = c +:+ d -> String.length a = String.length c -> a = c /\ b = d.
Proof.
  revert c. induction a as [|x a IH]; intros [|y c]; try done.
  rewrite !app_cons. intros [= -> Heq] [= Hlen].
  destruct (IH c Heq Hlen) as [-> ->]. done.
Qed.

(** The replacement is determined by the text. *)
Lemma Replaced_functional pat repl (s t1 t2 : string) :
  Replaced pat repl s t1 -> Replaced pat repl s t2 -> t1 = t2.
Proof.
  intros H1. revert t2.
  induction H1 as [s Hnone | u v v' Hleft Hrest IH]; intros t2 H2.
  - inversion H2 as [s0 Hnone2 | u2 v2 v2' Hleft2 Hrest2 Heq]; [done|].
    exfalso. apply Hnone. rewrite <-Heq. by exists u2, v2.
  - inversion H2 as [s0 Hnone2 Heq | u2 v2 v2' Hleft2 Hrest2 Heq].
    + exfalso. apply Hnone2. by exists u, v.
    + assert (String.length u2 = String.length u) as Hlen.
      { apply Nat.le_antisymm; [exact (Hleft2 u v Heq)|exact (Hleft u2 v2 (eq_sym Heq))]. }
      destruct (app_inv_length _ _ _ _ Heq Hlen) as [-> Hv].
      apply (inj (String.app pat)) in Hv. subst v2.
      by rewrite (IH _ Hrest2).
Qed.

Lemma app_prefix_le (x y x' y' : string) :
  x +:+ y = x' +:+ y' -> String.length x' <= String.length x -> exists v, x = x' +:+ v.
Proof.
  revert x. induction x' as [|c x' IH]; intros x Heq Hlen; [by exists x|].
  destruct x as [|d x]; [simpl in Hlen; lia|].
  rewrite !app_cons in Heq. injection Heq as -> Heq.
  destruct (IH x Heq) as [v ->]; [simpl in Hlen; lia|]. by exists v.
Qed.

(** An occurrence that starts inside [a] ends before the last character
    of the pattern that follows [a]. *)
Lemma occurs_before (p c a b u' w' : string) :
  String.length c = 1 ->
  a +:+ (p +:+ c) +:+ b = u' +:+ (p +:+ c) +:+ w' ->
  String.length u' < String.length a ->
  occurs (p +:+ c) (a +:+ p).
Proof.
  intros Hc Heq Hlt.
  assert ((a +:+ p) +:+ (c +:+ b) = (u' +:+ p +:+ c) +:+ w') as Heq'.
  { by rewrite !app_assoc_str, <-(app_assoc_str p c b), <-(app_assoc_str p c w'). }
  apply app_prefix_le in Heq' as [v Hv].
  - exists u', v. by rewrite Hv, !app_assoc_str.
  - rewrite !length_app_str. lia.
Qed.

Lemma contains_unfold (sub s : string) :
  Str.contains sub s
  = if String.prefix sub s then true
    else match s with
         | EmptyString => false
         | String _ s' => Str.contains sub s'
         end.
Proof. by destruct s. Qed.

Lemma contains_occurs (pat s : string) : occurs pat s -> Str.contains pat s = true.
Proof.
  intros (u & v & ->). induction u as [|c u IH].
  - rewrite app_empty_l, contains_unfold.
    assert (String.prefix pat (pat +:+ v) = true) as ->; [|done].
    apply prefix_app. by exists v.
  - rewrite app_cons, contains_unfold. by destruct (String.prefix _ _).
Qed.

(** A text with one occurrence of the pattern. *)
Lemma re_sub_single pat repl (a b : string) :
  pat <> "" ->
  (forall u' w', a +:+ pat +:+ b = u' +:+ pat +:+ w' -> String.length a <= String.length u') ->
  ~ occurs pat b ->
  Str.re_sub pat repl (a +:+ pat +:+ b) = a +:+ repl +:+ b.
Proof.
  intros Hpat Hleft Hnone.
  apply (Replaced_functional pat repl (a +:+ pat +:+ b)).
  - by apply re_sub_Replaced.
  - apply Replaced_first; [done|]. by apply Replaced_none.
Qed.
Lemma app_inj_r (a b c : string) : a +:+ c = b +:+ c -> a = b.
Proof.
  intros Heq. apply (app_inv_length a c b c Heq).
  apply (f_equal String.length) in Heq. rewrite !length_app_str in Heq. lia.
Qed.

Lemma slashes_add (n m : nat) : slashes (n + m) = slashes n +:+ slashes m.
Proof. induction n as [|n IH]; [done|]. simpl. by rewrite IH. Qed.

Lemma slashes_snoc (n : nat) : slashes (S n) = slashes n +:+ "/".
Proof. by rewrite <-(Nat.add_1_r n), slashes_add. Qed.

Lemma Trimmed_longer (t1 t2 : string) (n k : nat) :
  t1 +:+ slashes n = t2 +:+ slashes (S k + n) -> exists t', t1 = t' +:+ "/".
Proof.
  rewrite slashes_add, <-app_assoc_str. intros ->%app_inj_r.
  exists (t2 +:+ slashes k). by rewrite slashes_snoc, app_assoc_str.
Qed.

(** The text without its trailing slashes is determined by the text. *)
Lemma Trimmed_functional (s t1 t2 : string) :
  Trimmed s t1 -> Trimmed s t2 -> t1 = t2.
Proof.
  intros [[n1 H1] Hend1] [[n2 H2] Hend2]. rewrite H1 in H2.
  destruct (Nat.lt_trichotomy n1 n2) as [Hlt|[->|Hgt]].
  - replace n2 with (S (n2 - n1 - 1) + n1) in H2 by lia.
    apply Trimmed_longer in H2 as [t' Ht']. by destruct (Hend1 t').
  - by apply app_inj_r in H2.
  - replace n1 with (S (n1 - n2 - 1) + n2) in H2 by lia.
    symmetry in H2. apply Trimmed_longer in H2 as [t' Ht']. by destruct (Hend2 t').
Qed.

Lemma ends_with_slash_tail (a b t' : string) :
  b <> "" -> a +:+ b = t' +:+ "/" -> exists b', b = b' +:+ "/".
Proof.
  intros Hb. revert t'. induction a as [|c a IH]; intros t' Heq.
  - by exists t'.
  - destruct t' as [|d t'].
    + rewrite app_cons, app_empty_l in Heq. injection Heq as _ Heq.
      destruct a; [by destruct b|done].
    + rewrite !app_cons in Heq. injection Heq as _ Heq. by apply (IH t').
Qed.

(** ** Column names *)

Lemma traverse_length {A B} (f : A -> result B) (l : list A) (out : list B) :
  traverse f l = Ok out -> List.length out = List.length l.
Proof.
  revert out. induction l as [|x l IH]; intros out; simpl.
  - by intros [= <-].
  - destruct (f x) as [y|e]; simpl; [|done].
    destruct (traverse f l) as [ys|e]; simpl; [|done].
    intros [= <-]. simpl. by rewrite (IH ys).
Qed.


Lemma traverse_Ok {A B} (f : A -> result B) (l : list A) :
  Forall (fun x => exists y, f x = Ok y) l -> exists out, traverse f l = Ok out.
Proof.
  induction 1 as [|x l [y Hy] _ [ys Hys]]; simpl; [by eexists|].
  rewrite Hy, Hys. simpl. by eexists.
Qed.




Example flatten_columns_league :
  _flatten_columns (table_columns league_table) = Ok [LStr "Player/Position"; LStr "Club"].
Proof. reflexivity. Qed.

Example flatten_columns_plain (labels : list label) :
  _flatten_columns (FlatIndex labels) = Ok labels.
Proof. reflexivity. Qed.

Example flatten_columns_three_levels :
  exists e, _flatten_columns (MultiIndex [[LStr "a"; LStr "b"; LStr "c"]]) = Raise e.
Proof. by eexists. Qed.

(** ** Renaming *)

Lemma map_fmap {A B} (f : A -> B) (l : list A) : map f l = f <$> l.
Proof. reflexivity. Qed.

Lemma columns_rename mapper (df : DataFrame) :
  columns (rename mapper df) = map (renamed mapper) (columns df).
Proof. unfold columns, rename. rewrite !map_map. by apply map_ext. Qed.


Lemma renamed_league_cases (l : label) :
  (l = LStr "Club" /\ renamed league_names l = LStr "Team")
  \/ (l = LStr "Injury" /\ renamed league_names l = LStr "Injury Type")
  \/ (l = LStr "until" /\ renamed league_names l = LStr "Expected Return")
  \/ (l = LStr "Market Value" /\ renamed league_names l = LStr "Market Value (€)")
  \/ ((forall new, (l, new) ∉ league_names) /\ renamed league_names l = l).
Proof.
  unfold league_names. cbn [renamed].
  repeat (case_decide; [subst; tauto|]).
  do 4 right. split; [|done].
  intros new Hin. repeat (apply elem_of_cons in Hin as [Hin|Hin]; [congruence|]).
  by apply elem_of_nil in Hin.
Qed.




(** ** Splitting "Player/Position" *)

Lemma second_part_all_missing (parts : list (option (string * option string))) :
  existsb has_second parts = false ->
  map second_part parts = replicate (List.length parts) NA.
Proof.
  induction parts as [|p parts IH]; [done|]. simpl.
  intros [Hp Hparts]%orb_false_iff. rewrite (IH Hparts).
  by destruct p as [[a [b|]]|].
Qed.

(** The frame cut out of a column with at least one row: the text before
    the first newline under "Player", the text behind it under
    "Position". *)
Lemma split_player_position_rows (df : DataFrame) (col : Series) :
  getitem_str "Player/Position" df = Ok col ->
  values col <> [] ->
  split_player_position df
  = Ok [ (LStr "Player",
          mkSeries object (map first_part (map (split_cell Str.newline) (values col))));
         (LStr "Position",
          mkSeries object (map second_part (map (split_cell Str.newline) (values col)))) ].
Proof.
  intros Hcol Hrows. unfold split_player_position. rewrite Hcol. simpl.
  unfold str_split_expand.
  destruct (map (split_cell Str.newline) (values col)) as [|p parts] eqn:Hparts.
  { by destruct (values col). }
  destruct (existsb has_second (p :: parts)) eqn:Hsecond.
  - reflexivity.
  - rewrite (second_part_all_missing _ Hsecond). cbn [List.length].
    rewrite <-(length_map first_part parts). reflexivity.
Qed.

Lemma split_player_position_empty (df : DataFrame) (col : Series) :
  getitem_str "Player/Position" df = Ok col ->
  values col = [] ->
  split_player_position df = Ok [(LStr "Position", mkSeries object [])].
Proof.
  intros Hcol Hrows. unfold split_player_position. rewrite Hcol. simpl.
  unfold str_split_expand. by rewrite Hrows.
Qed.



Example split_keeps_later_newlines :
  Str.split_once Str.newline ("a" +:+ String Str.newline ("b" +:+ String Str.newline "c"))
  = ("a", Some ("b" +:+ String Str.newline "c")).
Proof. reflexivity. Qed.

(** ** The league view *)

Ltac unfold_monad :=
  unfold bind, ret, raise, lift, attempt, sess_get, raise_for_status,
         time_sleep, print in *.

Lemma traverse_app_inv {A B} (f : A -> result B) (l1 l2 : list A) (out : list B) :
  traverse f (l1 ++ l2) = Ok out ->
  exists o1 o2, out = o1 ++ o2 /\ traverse f l1 = Ok o1 /\ traverse f l2 = Ok o2.
Proof.
  revert out. induction l1 as [|x l1 IH]; intros out; simpl.
  - intros Hout. by exists [], out.
  - destruct (f x) as [y|e]; simpl; [|done].
    destruct (traverse f (l1 ++ l2)) as [ys|e] eqn:Hys; simpl; [|done].
    intros [= <-]. destruct (IH ys eq_refl) as (o1 & o2 & -> & -> & ->).
    by exists (y :: o1), o2.
Qed.

Lemma apply_columns (f : Series -> result Series) (df out : DataFrame) :
  apply f df = Ok out -> columns out = columns df.
Proof.
  unfold apply. revert out. induction df as [|[l s] df IH]; intros out; simpl.
  - by intros [= <-].
  - destruct (f s) as [s'|e]; simpl; [|done].
    destruct (traverse _ df) as [ys|e]; simpl; [|done].
    intros [= <-]. simpl. by rewrite (IH ys).
Qed.

Lemma strip_all_missing (n : nat) :
  strip_if_object (mkSeries object (replicate n NA)) = Ok (mkSeries object (replicate n NA)).
Proof.
  unfold strip_if_object, str_accessor_ok. cbn [dtype_of values].
  rewrite bool_decide_eq_true_2 by done.
  assert (existsb is_Num (replicate n NA) = false) as ->.
  { induction n; [done|]. simpl. done. }
  rewrite orb_true_r. cbn [andb]. do 2 f_equal.
  induction n as [|n IH]; [done|]. simpl. by rewrite IH.
Qed.

Lemma split_player_position_column (df split_cols : DataFrame) :
  split_player_position df = Ok split_cols ->
  exists col, getitem_str "Player/Position" df = Ok col.
Proof.
  unfold split_player_position.
  destruct (getitem_str "Player/Position" df) as [col|]; [by exists col|done].
Qed.

(** What a successful run of [get_league_injuries] went through. *)
Lemma get_league_injuries_Ok server cn slug code (w w' : world) (out : DataFrame) :
  get_league_injuries server cn slug code w = (Ok out, w') ->
  exists url resp table names col split_cols rest,
    w' = World (requests w ++ [url]) (sleeps w) (stdout w)
    /\ server (requests w) url = Answer resp
    /\ table_items (soup_of resp) = Some (Ok table)
    /\ _flatten_columns (table_columns table) = Ok names
    /\ getitem_str "Player/Position" (set_columns table names) = Ok col
    /\ split_player_position (set_columns table names) = Ok split_cols
    /\ drop "Player/Position" (set_columns table names) = Ok rest
    /\ apply strip_if_object (rename league_names (concat_axis1 rest split_cols)) = Ok out.
Proof.
  unfold get_league_injuries. unfold_monad. intros Hrun.
  repeat (first [case_match | progress unfold_monad]; simplify_eq).
  all: match goal with
       | H : split_player_position _ = Ok _ |- _ =>
           destruct (split_player_position_column _ _ H) as [col Hcol]
       end.
  all: by repeat eexists.
Qed.

Lemma split_player_position_last (df : DataFrame) (col : Series) (split_cols : DataFrame) :
  getitem_str "Player/Position" df = Ok col ->
  split_player_position df = Ok split_cols ->
  exists front,
    split_cols
    = front ++ [(LStr "Position",
                 mkSeries object (map second_part (map (split_cell Str.newline) (values col))))]
    /\ (front = [] \/ exists s, front = [(LStr "Player", s)]).
Proof.
  intros Hcol Hsplit. destruct (values col) as [|c cells] eqn:Hrows.
  - rewrite (split_player_position_empty df col Hcol Hrows) in Hsplit.
    injection Hsplit as <-. exists []. split; [done|by left].
  - rewrite (split_player_position_rows df col Hcol) in Hsplit by (by rewrite Hrows).
    injection Hsplit as <-. rewrite Hrows.
    eexists [_]. split; [done|]. right. by eexists.
Qed.

Lemma second_part_no_newline (cells : list cell) :
  Forall (fun c => forall s, c = Str s -> Str.mem Str.newline s = false) cells ->
  map second_part (map (split_cell Str.newline) cells) = replicate (List.length cells) NA.
Proof.
  induction 1 as [|c cells Hc _ IH]; [done|]. simpl. rewrite IH. f_equal.
  destruct c as [|s|z]; try done. simpl.
  by rewrite (split_once_missing _ _ (Hc s eq_refl)).
Qed.

(** C10. The table [get_league_injuries] returns always has a "Position"
    column.  When no "Player/Position" value of the source table holds a
    newline the column is still there, as the last one, with a missing
    value in every row. *)
Theorem league_frame_has_position server cn slug code (w w' : world) (out : DataFrame) :
  get_league_injuries server cn slug code w = (Ok out, w') ->
  LStr "Position" ∈ columns out
  /\ exists url resp table names col,
       requests w' = requests w ++ [url]
       /\ server (requests w) url = Answer resp
       /\ table_items (soup_of resp) = Some (Ok table)
       /\ _flatten_columns (table_columns table) = Ok names
       /\ getitem_str "Player/Position" (set_columns table names) = Ok col
       /\ (Forall (fun c => forall s, c = Str s -> Str.mem Str.newline s = false) (values col) ->
           last out
           = Some (LStr "Position", mkSeries object (replicate (List.length (values col)) NA))).
Proof.
  intros Hrun.
  destruct (get_league_injuries_Ok _ _ _ _ _ _ _ Hrun)
    as (url & resp & table & names & col & split_cols & rest
        & -> & Hresp & Htable & Hnames & Hcol & Hsplit & Hdrop & Hout).
  destruct (split_player_position_last _ _ _ Hcol Hsplit) as (front & -> & Hfront).
  split.
  - rewrite (apply_columns _ _ _ Hout), columns_rename.
    unfold concat_axis1, columns. rewrite !map_app. cbn [map fst].
    rewrite !elem_of_app. right. right. constructor.
  - exists url, resp, table, names, col. repeat (split; [done|]).
    intros Hplain. rewrite (second_part_no_newline _ Hplain) in Hout.
    unfold concat_axis1, rename, apply in Hout.
    rewrite app_assoc, map_app in Hout.
    apply traverse_app_inv in Hout as (o1 & o2 & -> & _ & Hlast).
    cbn [map traverse fst snd renamed league_names] in Hlast.
    rewrite strip_all_missing in Hlast. simpl in Hlast.
    injection Hlast as <-. by rewrite last_snoc.
Qed.

Lemma league_frame_has_position_witness :
  exists out w',
    get_league_injuries plain_league_server (Some "Spain") None None fresh = (Ok out, w')
    /\ LStr "Position" ∈ columns out
    /\ last out = Some (LStr "Position", mkSeries object [NA; NA]).
Proof.
  exists [ text_column "Team" [Str "FC"; NA];
           text_column "Player" [Str "J. Doe"; Str "K. Roe"];
           text_column "Position" [NA; NA] ],
         (World ["https://www.transfermarkt.us/laliga/verletztespieler/wettbewerb/ES1"] [] []).
  assert (get_league_injuries plain_league_server (Some "Spain") None None fresh
          = (Ok [ text_column "Team" [Str "FC"; NA];
                  text_column "Player" [Str "J. Doe"; Str "K. Roe"];
                  text_column "Position" [NA; NA] ],
             World ["https://www.transfermarkt.us/laliga/verletztespieler/wettbewerb/ES1"] [] []))
    as Hrun by (vm_compute; reflexivity).
  split; [exact Hrun|].
  destruct (league_frame_has_position _ _ _ _ _ _ _ Hrun)
    as (Hpos & url & resp & table & names & col & _ & Hresp & Htable & Hnames & Hcol & Hlast).
  split; [exact Hpos|].
  unfold plain_league_server in Hresp. injection Hresp as <-.
  simpl in Htable. injection Htable as <-.
  simpl in Hnames. injection Hnames as <-.
  vm_compute in Hcol. injection Hcol as <-.
  apply Hlast. repeat constructor; intros s [= <-]; reflexivity.
Defined.

(** ** Which league *)

Lemma truthy_Some (s : string) : s <> "" -> truthy (Some s) = true.
Proof. by destruct s. Qed.

(** At an empty [country_name], which is not a key of [LEAGUE_MAP], the
    call goes on with the slug and code given and requests the league
    page. *)
Lemma empty_country_name_reaches_network :
  LEAGUE_MAP !! "" = None
  /\ exists out,
       get_league_injuries league_server (Some "") (Some "laliga") (Some "ES1") fresh
       = (Ok out,
          World ["https://www.transfermarkt.us/laliga/verletztespieler/wettbewerb/ES1"] [] []).
Proof. split; [reflexivity|]. eexists. vm_compute. reflexivity. Qed.

(** C2, amended.  [get_league_injuries] raises its configuration error
    with the world untouched, hence before any request, when the country
    name is a non-empty string that [LEAGUE_MAP] does not hold, and when
    the country name is absent or empty and the slug or the code is absent
    or empty.  With the country name absent or empty and both slug and
    code present, the call goes on to request the league page built from
    them. *)
Theorem league_target_checked_first server (cn slug code : option string) (w : world) :
  (forall c, cn = Some c -> c <> "" -> LEAGUE_MAP !! c = None ->
     get_league_injuries server cn slug code w = (Raise unmapped_country, w))
  /\ (cn = None \/ cn = Some "" ->
      truthy slug = false \/ truthy code = false ->
      get_league_injuries server cn slug code w = (Raise missing_slug_or_code, w))
  /\ (cn = None \/ cn = Some "" ->
      forall s c, slug = Some s -> code = Some c -> s <> "" -> c <> "" ->
      requests (get_league_injuries server cn slug code w).2
      = requests w ++ [BASE_URL +:+ "/" +:+ s +:+ "/verletztespieler/wettbewerb/" +:+ c]).
Proof.
  split; [|split].
  - intros c -> Hc Hmap. unfold get_league_injuries. unfold_monad.
    rewrite (truthy_Some c Hc). change (default "" (Some c)) with c. by rewrite Hmap.
  - intros Hcn Hmiss. unfold get_league_injuries. unfold_monad.
    assert (truthy cn = false) as -> by (by destruct Hcn as [-> | ->]).
    cbn [fst snd]. by destruct Hmiss as [-> | ->]; rewrite ?orb_true_r.
  - intros Hcn s c -> -> Hs Hc. unfold get_league_injuries. unfold_monad.
    assert (truthy cn = false) as -> by (by destruct Hcn as [-> | ->]).
    cbn [fst snd]. rewrite (truthy_Some s Hs), (truthy_Some c Hc).
    cbn [negb orb]. change (default "" (Some s)) with s.
    change (default "" (Some c)) with c.
    repeat (first [case_match | progress unfold_monad]; simplify_eq); done.
Qed.

Lemma league_target_checked_first_witness :
  get_league_injuries offline (Some "Atlantis") (Some "laliga") (Some "ES1") fresh
  = (Raise unmapped_country, fresh)
  /\ get_league_injuries offline None (Some "laliga") None fresh
     = (Raise missing_slug_or_code, fresh)
  /\ requests (get_league_injuries offline (Some "") (Some "laliga") (Some "ES1") fresh).2
     = ["https://www.transfermarkt.us/laliga/verletztespieler/wettbewerb/ES1"].
Proof.
  destruct (league_target_checked_first offline (Some "Atlantis") (Some "laliga") (Some "ES1") fresh)
    as (Hunmapped & _ & _).
  destruct (league_target_checked_first offline None (Some "laliga") None fresh)
    as (_ & Hmissing & _).
  destruct (league_target_checked_first offline (Some "") (Some "laliga") (Some "ES1") fresh)
    as (_ & _ & Hgoes).
  split; [|split].
  - apply (Hunmapped "Atlantis" eq_refl); [discriminate|reflexivity].
  - apply Hmissing; [by left|by right].
  - apply (Hgoes (or_intror eq_refl) "laliga" "ES1" eq_refl eq_refl); discriminate.
Defined.

Example spain_resolves :
  requests (get_league_injuries offline (Some "Spain") None None fresh).2
  = ["https://www.transfermarkt.us/laliga/verletztespieler/wettbewerb/ES1"].
Proof. reflexivity. Qed.

(** ** The history of one player *)

Ltac run_cases :=
  repeat (first [case_match | progress unfold_monad]; simplify_eq).

(** One request, to the derived URL, whatever comes of it. *)
Lemma get_player_injury_history_world server (player_url : string) (w : world) :
  (get_player_injury_history server player_url w).2
  = World (requests w ++ [injury_url_of player_url]) (sleeps w) (stdout w).
Proof. unfold get_player_injury_history. unfold_monad. run_cases; done. Qed.

(** The outcome depends on the requests made so far and on nothing else
    of the world. *)
Lemma get_player_injury_history_result server (player_url : string) (w : world) :
  (get_player_injury_history server player_url w).1
  = history_of server (requests w) player_url.
Proof.
  unfold history_of, get_player_injury_history. unfold_monad. cbn [requests].
  destruct (server (requests w) (injury_url_of player_url)) as [e|resp]; [done|].
  destruct ((400 <=? status_code resp)%Z && (status_code resp <? 600)%Z); [done|].
  destruct (table_items (soup_of resp)) as [[table|e]|]; [|done..].
  destruct (_flatten_columns (table_columns table)) as [names|e]; [|done].
  destruct (h1 (soup_of resp)) as [pieces|]; [|done].
  by destruct (insert0 _ _ _).
Qed.

Lemma get_player_injury_history_run server (player_url : string) (w : world) :
  get_player_injury_history server player_url w
  = (history_of server (requests w) player_url,
     World (requests w ++ [injury_url_of player_url]) (sleeps w) (stdout w)).
Proof.
  rewrite <-(get_player_injury_history_result server player_url w),
          <-(get_player_injury_history_world server player_url w).
  by destruct (get_player_injury_history server player_url w).
Qed.

(** C8. The URL [get_player_injury_history] requests, and the only one,
    is the input URL without its trailing slashes and with "/profil/"
    replaced by "/verletzungen/".  For a profile URL that holds "/profil/"
    once, followed by a path, the request goes to the same URL with
    "/verletzungen/" in that place and no slash at the end. *)
Theorem history_url_derived server (player_url : string) (w : world) :
  (exists trimmed injury_url,
     Trimmed player_url trimmed
     /\ Replaced "/profil/" "/verletzungen/" trimmed injury_url
     /\ requests (get_player_injury_history server player_url w).2
        = requests w ++ [injury_url])
  /\ (forall a b n,
        player_url = a +:+ "/profil/" +:+ b +:+ slashes n ->
        b <> "" -> (forall b', b <> b' +:+ "/") ->
        ~ occurs "/profil/" (a +:+ "/profil") -> ~ occurs "/profil/" b ->
        requests (get_player_injury_history server player_url w).2
        = requests w ++ [a +:+ "/verletzungen/" +:+ b]).
Proof.
  split.
  - exists (Str.rstrip "/" player_url), (injury_url_of player_url).
    split; [apply rstrip_slashes|]. split; [by apply re_sub_Replaced|].
    by rewrite get_player_injury_history_world.
  - intros a b n -> Hb Hend Hfirst Hnone.
    rewrite get_player_injury_history_world. cbn [requests]. do 2 f_equal.
    unfold injury_url_of.
    assert (Str.rstrip "/" (a +:+ "/profil/" +:+ b +:+ slashes n) = a +:+ "/profil/" +:+ b)
      as ->.
    { eapply Trimmed_functional; [apply rstrip_slashes|]. split.
      - exists n. by rewrite !app_assoc_str.
      - intros t' Heq. rewrite <-app_assoc_str in Heq.
        destruct (ends_with_slash_tail _ _ _ Hb Heq) as [b' Hb']. by destruct (Hend b'). }
    apply re_sub_single; [done| |done].
    intros u' w' Heq. destruct (Nat.le_gt_cases (String.length a) (String.length u')) as [|Hlt];
      [done|]. exfalso. apply Hfirst.
    by apply (occurs_before "/profil" "/" a b u' w').
Qed.

Lemma history_url_derived_witness :
  requests (get_player_injury_history offline
              "https://www.transfermarkt.us/j-doe/profil/spieler/123//" fresh).2
  = ["https://www.transfermarkt.us/j-doe/verletzungen/spieler/123"].
Proof.
  destruct (history_url_derived offline
              "https://www.transfermarkt.us/j-doe/profil/spieler/123//" fresh)
    as [_ Hshape].
  apply (Hshape "https://www.transfermarkt.us/j-doe" "spieler/123" 2 eq_refl).
  - discriminate.
  - exact (proj2 (rstrip_slashes "spieler/123")).
  - intros Hocc. apply contains_occurs in Hocc. discriminate Hocc.
  - intros Hocc. apply contains_occurs in Hocc. discriminate Hocc.
Defined.

Example history_url_of_profile :
  injury_url_of "https://www.transfermarkt.us/j-doe/profil/spieler/123//"
  = "https://www.transfermarkt.us/j-doe/verletzungen/spieler/123".
Proof. reflexivity. Qed.

Example history_url_requested :
  requests (get_player_injury_history offline "https://t.us/a/profil/spieler/1/" fresh).2
  = ["https://t.us/a/verletzungen/spieler/1"].
Proof. reflexivity. Qed.

(** *** Stamping the rows *)

Lemma apply_Forall2 (f : Series -> result Series) (df out : DataFrame) :
  apply f df = Ok out ->
  Forall2 (fun p q => q.1 = p.1 /\ f p.2 = Ok q.2) df out.
Proof.
  unfold apply. revert out. induction df as [|[l s] df IH]; intros out; simpl.
  - intros [= <-]. constructor.
  - destruct (f s) as [s'|e] eqn:Hs; simpl; [|done].
    destruct (traverse _ df) as [ys|e]; simpl; [|done].
    intros [= <-]. constructor; [done|]. by apply IH.
Qed.

Lemma strip_stamped (n : nat) (s : string) :
  strip_if_object (mkSeries object (replicate n (Str s)))
  = Ok (mkSeries object (replicate n (Str (Str.strip s)))).
Proof.
  unfold strip_if_object, str_accessor_ok. cbn [dtype_of values].
  rewrite bool_decide_eq_true_2 by done.
  assert (existsb is_Num (replicate n (Str s)) = false) as ->.
  { induction n; [done|]. simpl. done. }
  rewrite orb_true_r. cbn [andb]. do 2 f_equal.
  induction n as [|n IH]; [done|]. simpl. by rewrite IH.
Qed.

Lemma nrows_rename mapper (df : DataFrame) : nrows (rename mapper df) = nrows df.
Proof. by destruct df as [|[l s] df]. Qed.

Lemma setitem_stamped key v (df : DataFrame) p :
  p ∈ setitem key v df -> p.1 = key ->
  p.2 = mkSeries object (replicate (nrows df) v).
Proof.
  unfold setitem. case_bool_decide as Hkey.
  - rewrite map_fmap. intros (q & -> & _)%list_elem_of_fmap.
    by case_decide.
  - intros [Hp|Hp]%elem_of_app Hl.
    + exfalso. apply Hkey. unfold columns. rewrite map_fmap, <-Hl.
      by apply list_elem_of_fmap_2.
    + apply list_elem_of_singleton in Hp. by subst.
Qed.

Lemma setitem_columns key v (df : DataFrame) : key ∈ columns (setitem key v df).
Proof.
  unfold setitem. case_bool_decide as Hkey.
  - unfold columns in *. rewrite map_fmap in *.
    apply list_elem_of_fmap in Hkey as (q & -> & Hq).
    apply list_elem_of_fmap. eexists. split; [|apply list_elem_of_fmap_2, Hq].
    simpl. by rewrite decide_True.
  - unfold columns. rewrite map_app. apply elem_of_app. right. constructor.
Qed.

Lemma setitem_appends key v (df : DataFrame) :
  key ∉ columns df ->
  setitem key v df = df ++ [(key, mkSeries object (replicate (nrows df) v))].
Proof. intros Hkey. unfold setitem. by rewrite bool_decide_eq_false_2. Qed.

Lemma setitem_head key v l s (df : DataFrame) :
  l <> key -> exists rest, setitem key v ((l, s) :: df) = (l, s) :: rest.
Proof.
  intros Hl. unfold setitem. case_bool_decide.
  - simpl. rewrite decide_False by done. by eexists.
  - by eexists.
Qed.

(** What a successful run of [get_player_injury_history] went through. *)
Lemma get_player_injury_history_Ok server (player_url : string) (w w' : world)
    (out : DataFrame) :
  get_player_injury_history server player_url w = (Ok out, w') ->
  exists resp table names pieces,
    server (requests w) (injury_url_of player_url) = Answer resp
    /\ table_items (soup_of resp) = Some (Ok table)
    /\ _flatten_columns (table_columns table) = Ok names
    /\ h1 (soup_of resp) = Some pieces
    /\ (LStr "Player" ∉ columns (rename history_names (set_columns table names)))
    /\ apply strip_if_object
         (setitem (LStr "Profile URL") (Str player_url)
            ((LStr "Player",
              mkSeries object
                (replicate (nrows (set_columns table names))
                           (Str (get_text_strip pieces))))
             :: (rename history_names (set_columns table names))))
       = Ok out.
Proof.
  unfold get_player_injury_history, insert0. unfold_monad. intros Hrun.
  run_cases. rewrite nrows_rename in *.
  match goal with H : bool_decide _ = false |- _ => apply bool_decide_eq_false in H end.
  by repeat eexists.
Qed.

(** At a URL with whitespace at its end, a blank or a no-break space,
    the column holds the URL without it. *)
Lemma profile_url_column_is_trimmed :
  (exists out w',
     get_player_injury_history lenient_server "https://t.us/a/profil/spieler/1 " fresh
     = (Ok out, w')
     /\ last out
        = Some (LStr "Profile URL",
                mkSeries object [Str "https://t.us/a/profil/spieler/1";
                                 Str "https://t.us/a/profil/spieler/1"])
     /\ Str "https://t.us/a/profil/spieler/1" <> Str "https://t.us/a/profil/spieler/1 ")
  /\ (exists out w',
        get_player_injury_history lenient_server
          ("https://t.us/a/profil/spieler/1" +:+ Str.encode 160) fresh
        = (Ok out, w')
        /\ last out
           = Some (LStr "Profile URL",
                   mkSeries object [Str "https://t.us/a/profil/spieler/1";
                                    Str "https://t.us/a/profil/spieler/1"])).
Proof.
  split; eexists _, _; (split; [vm_compute; reflexivity|]); [split|]; done.
Qed.

(** C7, amended.  Every row of the table [get_player_injury_history]
    returns carries the same player name in the first column: the text of
    the page's first heading as [get_text(strip=True)] gives it, which the
    final trim leaves as it is.  Every row carries the same URL in the
    column "Profile URL": the input URL with the whitespace at its ends
    trimmed, which is the input URL itself when it has none.  The column
    is the last one when the page's table has no column of that name. *)
Theorem history_rows_stamped server (player_url : string) (w w' : world) (out : DataFrame) :
  get_player_injury_history server player_url w = (Ok out, w') ->
  exists resp table names pieces,
    server (requests w) (injury_url_of player_url) = Answer resp
    /\ table_items (soup_of resp) = Some (Ok table)
    /\ _flatten_columns (table_columns table) = Ok names
    /\ h1 (soup_of resp) = Some pieces
    /\ (exists rest,
          out = (LStr "Player",
                 mkSeries object (replicate (nrows (set_columns table names))
                                            (Str (Str.strip (get_text_strip pieces)))))
                :: rest)
    /\ (Forall (fun p => Str.utf8 p = true) pieces ->
        Str.strip (get_text_strip pieces) = get_text_strip pieces)
    /\ LStr "Profile URL" ∈ columns out
    /\ (forall s, (LStr "Profile URL", s) ∈ out ->
          s = mkSeries object (replicate (nrows (set_columns table names))
                                         (Str (Str.strip player_url))))
    /\ (LStr "Profile URL" ∉ columns (rename history_names (set_columns table names)) ->
        last out
        = Some (LStr "Profile URL",
                mkSeries object (replicate (nrows (set_columns table names))
                                           (Str (Str.strip player_url)))))
    /\ (clean player_url -> Str.strip player_url = player_url).
Proof.
  intros Hrun.
  destruct (get_player_injury_history_Ok _ _ _ _ _ Hrun)
    as (resp & table & names & pieces & Hresp & Htable & Hnames & Hh1 & Hfresh & Hout).
  exists resp, table, names, pieces. repeat (split; [done|]).
  set (n := nrows (set_columns table names)) in *.
  set (frame := rename history_names (set_columns table names)) in *.
  set (player := (LStr "Player", mkSeries object (replicate n (Str (get_text_strip pieces))))) in *.
  assert (nrows (player :: frame) = n) as Hn.
  { unfold player. simpl. by rewrite length_replicate. }
  split; [|split; [|split; [|split; [|split]]]].
  - destruct (setitem_head (LStr "Profile URL") (Str player_url) (LStr "Player")
                (mkSeries object (replicate n (Str (get_text_strip pieces)))) frame)
      as [rest Hrest]; [done|].
    fold player in Hrest. rewrite Hrest in Hout.
    unfold apply in Hout. cbn [traverse fst snd player] in Hout.
    rewrite strip_stamped in Hout. cbn [rbind] in Hout.
    destruct (traverse _ rest) as [rest'|e]; [|done].
    injection Hout as <-. by eexists.
  - apply get_text_strip_clean.
  - rewrite (apply_columns _ _ _ Hout). apply setitem_columns.
  - intros s Hs. apply apply_Forall2 in Hout.
    apply list_elem_of_lookup in Hs as [i Hi].
    destruct (Forall2_lookup_r _ _ _ _ _ Hout Hi) as ([l s0] & Hi0 & Hl & Hstrip).
    cbn [fst snd] in *.
    apply list_elem_of_lookup_2 in Hi0.
    apply setitem_stamped in Hi0; [|done]. cbn [snd] in Hi0. subst s0.
    rewrite Hn, strip_stamped in Hstrip. by injection Hstrip as <-.
  - intros Hnone. rewrite setitem_appends in Hout.
    + unfold apply in Hout. apply traverse_app_inv in Hout as (o1 & o2 & -> & _ & Hlast).
      cbn [traverse fst snd] in Hlast. rewrite Hn, strip_stamped in Hlast.
      injection Hlast as <-. by rewrite last_snoc.
    + unfold columns. cbn [map fst player]. intros [Heq|Hin]%elem_of_cons; [done|].
      by apply Hnone.
  - apply clean_strip.
Qed.

Lemma history_rows_stamped_witness :
  exists out w',
    get_player_injury_history lenient_server "https://t.us/a/profil/spieler/1" fresh
    = (Ok out, w')
    /\ (exists rest, out = (LStr "Player", mkSeries object [Str "A. One"; Str "A. One"]) :: rest)
    /\ last out
       = Some (LStr "Profile URL",
               mkSeries object [Str "https://t.us/a/profil/spieler/1";
                                Str "https://t.us/a/profil/spieler/1"]).
Proof.
  exists [ text_column "Player" [Str "A. One"; Str "A. One"];
           text_column "Season" [Str "21/22"; Str "20/21"];
           text_column "Injury" [Str "Knee"; Str "Flu"];
           (LStr "Days Missed", mkSeries numeric [Num 30; Num 4]);
           text_column "Profile URL" [Str "https://t.us/a/profil/spieler/1";
                                      Str "https://t.us/a/profil/spieler/1"] ],
         (World ["https://t.us/a/verletzungen/spieler/1"] [] []).
  assert (get_player_injury_history lenient_server "https://t.us/a/profil/spieler/1" fresh
          = (Ok [ text_column "Player" [Str "A. One"; Str "A. One"];
                  text_column "Season" [Str "21/22"; Str "20/21"];
                  text_column "Injury" [Str "Knee"; Str "Flu"];
                  (LStr "Days Missed", mkSeries numeric [Num 30; Num 4]);
                  text_column "Profile URL" [Str "https://t.us/a/profil/spieler/1";
                                             Str "https://t.us/a/profil/spieler/1"] ],
             World ["https://t.us/a/verletzungen/spieler/1"] [] []))
    as Hrun by (vm_compute; reflexivity).
  split; [exact Hrun|].
  destruct (history_rows_stamped _ _ _ _ _ Hrun)
    as (resp & table & names & pieces & Hresp & Htable & Hnames & Hh1
        & Hplayer & Hname & _ & _ & Hlast & _).
  unfold lenient_server in Hresp. injection Hresp as <-.
  simpl in Htable. injection Htable as <-.
  simpl in Hnames. injection Hnames as <-.
  simpl in Hh1. injection Hh1 as <-.
  split.
  - rewrite Hname in Hplayer; [exact Hplayer|]. repeat constructor.
  - apply Hlast. vm_compute.
    intros Hin. repeat (apply elem_of_cons in Hin as [Hin|Hin]; [discriminate Hin|]).
    by apply elem_of_nil in Hin.
Defined.

(** ** The batch *)

Lemma history_loop_run server (pause : float) (player_urls : list string) :
  forall (frames : list DataFrame) (w : world),
    history_loop server pause player_urls frames w
    = (Ok (frames ++ successes (outcomes server (requests w) player_urls)),
       World (requests w ++ map injury_url_of player_urls)
             (sleeps w ++ pauses pause (outcomes server (requests w) player_urls))
             (stdout w ++ warnings pause (outcomes server (requests w) player_urls))).
Proof.
  induction player_urls as [|url rest IH]; intros frames w.
  - simpl. unfold ret. rewrite !app_nil_r. by destruct w.
  - cbn [history_loop outcomes]. unfold bind at 1. unfold attempt at 1.
    rewrite get_player_injury_history_run.
    unfold successes, warnings, pauses. cbn [flat_map fst snd map].
    fold (successes (outcomes server (requests w ++ [injury_url_of url]) rest)).
    fold (warnings pause (outcomes server (requests w ++ [injury_url_of url]) rest)).
    fold (pauses pause (outcomes server (requests w ++ [injury_url_of url]) rest)).
    destruct (history_of server (requests w) url) as [df|ex].
    + unfold_monad. cbn [requests sleeps stdout].
      destruct (sleep_error pause); rewrite IH; cbn [requests sleeps stdout];
        by rewrite <-?app_assoc.
    + unfold_monad. rewrite IH. cbn [requests sleeps stdout].
      by rewrite <-?app_assoc.
Qed.

(** The batch as a whole: what it returns and what it leaves behind. *)
Lemma get_multiple_players_injury_history_run server (player_urls : list string)
    (pause : float) (w : world) :
  get_multiple_players_injury_history server player_urls pause w
  = (batch_table (successes (outcomes server (requests w) player_urls)),
     World (requests w ++ map injury_url_of player_urls)
           (sleeps w ++ pauses pause (outcomes server (requests w) player_urls))
           (stdout w ++ warnings pause (outcomes server (requests w) player_urls))).
Proof.
  unfold get_multiple_players_injury_history, bind.
  rewrite history_loop_run, app_nil_l.
  by destruct (successes _).
Qed.

Lemma outcomes_urls server (past : list string) (player_urls : list string) :
  map fst (outcomes server past player_urls) = player_urls.
Proof.
  revert past. induction player_urls as [|url rest IH]; intros past; [done|].
  simpl. by rewrite IH.
Qed.

(** *** Stacking *)


Lemma stacked_columns (frames : list DataFrame) :
  columns (stacked frames) = nub [] (flat_map columns frames).
Proof. unfold stacked, columns. rewrite map_map. apply map_id. Qed.


Lemma nub_spec (seen l : list label) :
  NoDup (nub seen l) /\ forall x, x ∈ nub seen l <-> x ∈ l /\ x ∉ seen.
Proof.
  revert seen. induction l as [|y l IH]; intros seen.
  { split; [constructor|]. intros x. split; [by intros ?%elem_of_nil|].
    by intros [?%elem_of_nil _]. }
  cbn [nub]. case_bool_decide as Hy.
  - destruct (IH seen) as [Hnd Hmem]. split; [done|].
    intros x. rewrite Hmem, elem_of_cons. split; [tauto|].
    intros [[->|Hx] Hns]; tauto.
  - destruct (IH (y :: seen)) as [Hnd Hmem]. split.
    + constructor; [|done]. rewrite Hmem, elem_of_cons. tauto.
    + intros x. rewrite !elem_of_cons, Hmem, elem_of_cons. split.
      * intros [->|[Hx Hns]]; tauto.
      * intros [[->|Hx] Hns]; [by left|]. destruct (decide (x = y)) as [->|Hne]; [by left|].
        right. tauto.
Qed.

Lemma nub_seen (seen l : list label) : (forall x, x ∈ l -> x ∈ seen) -> nub seen l = [].
Proof.
  induction l as [|y l IH]; intros Hl; [done|]. cbn [nub].
  rewrite bool_decide_eq_true_2 by (apply Hl; constructor).
  apply IH. intros x Hx. apply Hl. by constructor.
Qed.

(** Labels met again do not move the labels met first. *)
Lemma nub_absorb (seen a b : list label) :
  NoDup a -> (forall x, x ∈ a -> x ∉ seen) -> (forall x, x ∈ b -> x ∈ a \/ x ∈ seen) ->
  nub seen (a ++ b) = a.
Proof.
  revert seen. induction a as [|y a IH]; intros seen Hnd Hfresh Hb.
  - apply nub_seen. intros x Hx. destruct (Hb x Hx) as [?%elem_of_nil|]; done.
  - apply NoDup_cons in Hnd as [Hy Hnd]. cbn [app nub].
    rewrite bool_decide_eq_false_2 by (apply Hfresh; constructor).
    f_equal. apply IH; [done| |].
    + intros x Hx [->|Hs]%elem_of_cons; [done|].
      apply (Hfresh x); [by constructor|done].
    + intros x Hx. destruct (Hb x Hx) as [[->|Ha]%elem_of_cons|Hs].
      * right. constructor.
      * by left.
      * right. by constructor.
Qed.

(** In a frame with every label once, a label is found where it stands. *)
Lemma list_find_at (df : DataFrame) (i : nat) (l : label) (s : Series) :
  NoDup (columns df) -> df !! i = Some (l, s) ->
  list_find (fun p : label * Series => p.1 = l) df = Some (i, (l, s)).
Proof.
  intros Hnd Hi. apply list_find_Some. split; [done|]. split; [done|].
  intros j [l' s'] Hj Hlt Hl. cbn [fst] in Hl. subst l'.
  assert (columns df !! i = Some l) as Hci
    by (unfold columns; by rewrite map_fmap, list_lookup_fmap, Hi).
  assert (columns df !! j = Some l) as Hcj
    by (unfold columns; by rewrite map_fmap, list_lookup_fmap, Hj).
  pose proof (NoDup_lookup _ _ _ _ Hnd Hci Hcj). lia.
Qed.

Lemma flat_map_ext_Forall {A B} (f g : A -> list B) (l : list A) :
  Forall (fun x => f x = g x) l -> flat_map f l = flat_map g l.
Proof. induction 1 as [|x l Hx _ IH]; [done|]. simpl. by rewrite Hx, IH. Qed.

Lemma existsb_ext_Forall {A} (f g : A -> bool) (l : list A) :
  Forall (fun x => f x = g x) l -> existsb f l = existsb g l.
Proof. induction 1 as [|x l Hx _ IH]; [done|]. simpl. by rewrite Hx, IH. Qed.

(** Frames that share their labels, each label once, come out the same
    whether stacked place by place or label by label. *)
Lemma stacked_in_place_stacked (first : DataFrame) (rest : list DataFrame) :
  NoDup (columns first) ->
  Forall (fun g => columns g = columns first) rest ->
  stacked_in_place (first :: rest) = stacked (first :: rest).
Proof.
  intros Hnd Hrest.
  assert (Forall (fun g => columns g = columns first) (first :: rest)) as Hall
    by (by constructor).
  unfold stacked, stacked_in_place.
  assert (nub [] (flat_map columns (first :: rest)) = columns first) as ->.
  { cbn [flat_map]. apply nub_absorb; [done|by intros x _ ?%elem_of_nil|].
    intros x Hx. left. apply list_elem_of_In, in_flat_map in Hx as (g & Hg & Hx).
    apply list_elem_of_In in Hg, Hx. rewrite Forall_forall in Hrest.
    by rewrite <-(Hrest g Hg). }
  apply list_eq. intros i. unfold columns at 1.
  rewrite list_lookup_imap, !map_fmap, !list_lookup_fmap.
  destruct (first !! i) as [[l s]|] eqn:Hi; [|done].
  cbn [fmap option_fmap option_map fst].
  assert (Forall (fun g => cells_at i g = column_of l g /\ dtype_at i g = dtype_in l g)
                 (first :: rest)) as Hat.
  { eapply Forall_impl; [exact Hall|]. intros g Hg. cbn beta in Hg.
    assert (columns g !! i = Some l) as Hgi
      by (rewrite Hg; unfold columns; by rewrite map_fmap, list_lookup_fmap, Hi).
    unfold columns in Hgi. rewrite map_fmap, list_lookup_fmap in Hgi.
    destruct (g !! i) as [[l' s']|] eqn:Hg'; [|done]. injection Hgi as ->.
    unfold cells_at, dtype_at, column_of, dtype_in.
    rewrite Hg', (list_find_at g i l s'); [done| |done]. by rewrite Hg. }
  assert (existsb (fun g => bool_decide (dtype_at i g = object)) (first :: rest)
          = existsb (fun g => bool_decide (dtype_in l g = object)) (first :: rest)) as ->.
  { apply existsb_ext_Forall. eapply Forall_impl; [exact Hat|].
    intros g [_ Hd]. cbn beta. by rewrite Hd. }
  assert (flat_map (cells_at i) (first :: rest) = flat_map (column_of l) (first :: rest))
    as ->; [|done].
  apply flat_map_ext_Forall. eapply Forall_impl; [exact Hat|]. by intros g [Hc _].
Qed.

(** A frame stacked on its own is the frame. *)
Lemma stacked_in_place_singleton (df : DataFrame) : stacked_in_place [df] = df.
Proof.
  unfold stacked_in_place. apply list_eq. intros i. rewrite list_lookup_imap.
  destruct (df !! i) as [[l s]|] eqn:Hi; [|done].
  cbn [fmap option_fmap option_map fst flat_map existsb]. unfold cells_at, dtype_at.
  rewrite Hi, app_nil_r, orb_false_r. by destruct s as [[|] cells].
Qed.

Lemma pd_concat_singleton (df : DataFrame) : pd_concat [df] = Ok df.
Proof. unfold pd_concat. cbn [forallb]. by rewrite stacked_in_place_singleton. Qed.

(** Frames that have every label once are always concatenated, label
    by label. *)
Lemma pd_concat_unique (frames : list DataFrame) :
  frames <> [] -> Forall (fun df => NoDup (columns df)) frames ->
  pd_concat frames = Ok (stacked frames).
Proof.
  intros Hne Hnd. destruct frames as [|first rest]; [done|]. unfold pd_concat.
  destruct (forallb _ rest) eqn:Hsame.
  - f_equal. apply stacked_in_place_stacked; [by apply Forall_cons in Hnd as [? _]|].
    apply Forall_forall. intros g Hg. rewrite forallb_forall in Hsame.
    apply list_elem_of_In in Hg. by apply (bool_decide_eq_true_1 _), Hsame.
  - assert (forallb unique_labels (first :: rest) = true) as ->; [|done].
    apply forallb_forall. intros g Hg. apply list_elem_of_In in Hg.
    rewrite Forall_forall in Hnd. by apply bool_decide_eq_true_2, Hnd.
Qed.

Example concat_keeps_shared_duplicates :
  pd_concat [ [text_column "G" [Str "1"]; text_column "G" [Str "2"]];
              [text_column "G" [Str "3"]; text_column "G" [Str "4"]] ]
  = Ok [text_column "G" [Str "1"; Str "3"]; text_column "G" [Str "2"; Str "4"]].
Proof. reflexivity. Qed.

Example concat_refuses_other_labels_beside_duplicates :
  pd_concat [ [text_column "G" [Str "1"]; text_column "G" [Str "2"]];
              [text_column "H" [Str "3"]] ]
  = Raise invalid_index.
Proof. reflexivity. Qed.

Example concat_fills_missing_labels :
  pd_concat [ [text_column "A" [Str "1"]];
              [text_column "B" [Str "2"]; text_column "A" [Str "3"]] ]
  = Ok [text_column "A" [Str "1"; Str "3"]; text_column "B" [NA; Str "2"]].
Proof. reflexivity. Qed.

Lemma batch_table_unique (frames : list DataFrame) :
  Forall (fun df => NoDup (columns df)) frames -> batch_table frames = Ok (stacked frames).
Proof.
  intros Hnd. destruct frames as [|first rest]; [done|]. by apply pd_concat_unique.
Qed.

Ltac by_decide := apply (bool_decide_unpack _); vm_compute; exact I.

(** C9. When no URL of the batch yields a table, the empty list of URLs
    included, [get_multiple_players_injury_history] raises nothing and
    returns [pd.DataFrame()], the table without rows and columns. *)
Theorem batch_without_success_is_empty server (player_urls : list string) (pause : float)
    (w : world) :
  Forall (fun o => exists ex, o.2 = Raise ex) (outcomes server (requests w) player_urls) ->
  (get_multiple_players_injury_history server player_urls pause w).1 = Ok pd_DataFrame.
Proof.
  intros Hfail. unfold get_multiple_players_injury_history, bind.
  rewrite history_loop_run.
  assert (successes (outcomes server (requests w) player_urls) = []) as ->; [|done].
  induction Hfail as [|[url r] outs [ex Hex] _ IH]; [done|].
  simpl in Hex. subst r. done.
Qed.

Lemma batch_without_success_is_empty_witness :
  Forall (fun o => exists ex, o.2 = Raise ex)
         (outcomes offline [] ["https://t.us/a/profil/spieler/1"; "https://t.us/b/profil/spieler/2"])
  /\ (get_multiple_players_injury_history offline
        ["https://t.us/a/profil/spieler/1"; "https://t.us/b/profil/spieler/2"] 1%float fresh).1
     = Ok pd_DataFrame.
Proof.
  assert (Forall (fun o : string * result DataFrame => exists ex, o.2 = Raise ex)
            (outcomes offline []
               ["https://t.us/a/profil/spieler/1"; "https://t.us/b/profil/spieler/2"])) as Hfail.
  { repeat constructor; by eexists. }
  split; [exact Hfail|].
  exact (batch_without_success_is_empty offline
           ["https://t.us/a/profil/spieler/1"; "https://t.us/b/profil/spieler/2"] 1%float fresh Hfail).
Defined.

Example batch_of_nothing server (pause : float) (w : world) :
  get_multiple_players_injury_history server [] pause w = (Ok pd_DataFrame, w).
Proof. unfold get_multiple_players_injury_history, bind. simpl. unfold ret. done. Qed.

Lemma warnings_of_failures (pause : float) (outs : list (string * result DataFrame)) :
  sleep_error pause = None ->
  warnings pause outs = map (fun f => warning f.1 f.2) (failures outs).
Proof.
  intros Hpause. unfold warnings, failures. rewrite Hpause.
  induction outs as [|[url [df|ex]] outs IH]; simpl; [done|exact IH|].
  f_equal. exact IH.
Qed.



(** ** The roster links *)

(** The pauses [time.sleep] takes and refuses; the last three lie around
    the greatest count of nanoseconds that fits. *)
Example sleep_error_cases :
  map sleep_error
      [ 1; 0; -0; -1; 1e10; -1e10; nan; infinity;
        0x1.12e0be826d694p+33; 0x1.12e0be826d695p+33; -0x1.12e0be826d695p+33 ]%float
  = [ None; None; None; Some sleep_refused; Some sleep_overflow; Some sleep_overflow;
      Some sleep_nan; Some sleep_overflow;
      None; Some sleep_overflow; Some sleep_refused ].
Proof. reflexivity. Qed.

Lemma sorted_spec (urls : gset string) :
  Sorted String.le (sorted urls)
  /\ NoDup (sorted urls)
  /\ forall u, u ∈ sorted urls <-> u ∈ urls.
Proof.
  unfold sorted. split; [apply Sorted_merge_sort, _|]. split.
  - rewrite merge_sort_Permutation. apply NoDup_elements.
  - intros u. rewrite merge_sort_Permutation. apply elem_of_elements.
Qed.

(** C6. On a team page that was fetched, and with a pause that
    [time.sleep] accepts, [get_team_player_urls] returns the links of the
    anchors whose [href] holds "/profil/spieler/", each cut before its
    first "?" and joined to the scheme and host of the team URL; the list
    is in ascending order and holds no URL twice.  With a pause that
    [time.sleep] refuses the call raises what [time.sleep] raised.  A link
    with a query string and the same link without one are cut to the same
    text, and so give one entry. *)
Theorem team_urls_sorted_unique server urlparse_scheme urlparse_netloc urljoin
    (team_url : string) (pause : float) (w : world) :
  let run :=
    get_team_player_urls server urlparse_scheme urlparse_netloc urljoin team_url pause w in
  let root := urlparse_scheme team_url +:+ "://" +:+ urlparse_netloc team_url in
  (forall resp,
     server (requests w) team_url = Answer resp ->
     ((400 <=? status_code resp) && (status_code resp <? 600))%Z = false ->
     (sleep_error pause = None ->
      exists urls,
        run = (Ok urls, World (requests w ++ [team_url]) (sleeps w ++ [pause]) (stdout w)))
     /\ (forall e, sleep_error pause = Some e ->
           run = (Raise e, World (requests w ++ [team_url]) (sleeps w) (stdout w))))
  /\ (forall urls w',
        run = (Ok urls, w') ->
        exists resp,
          server (requests w) team_url = Answer resp
          /\ (forall u,
                u ∈ urls <->
                exists href,
                  href ∈ anchors (soup_of resp)
                  /\ Str.contains "/profil/spieler/" href = true
                  /\ u = urljoin root (Str.split_once "?" href).1)
          /\ Sorted String.le urls
          /\ NoDup urls)
  /\ (forall path query,
        Str.mem "?" path = false ->
        (Str.split_once "?" (path +:+ String "?" query)).1 = path
        /\ (Str.split_once "?" path).1 = path).
Proof.
  intros run root. split; [|split].
  - intros resp Hresp Hstatus.
    unfold run, get_team_player_urls. unfold_monad. rewrite Hresp, Hstatus.
    cbn [requests sleeps stdout]. split.
    + intros ->. by eexists.
    + by intros e ->.
  - intros urls w' Hrun. unfold run, get_team_player_urls in Hrun.
    unfold_monad. destruct (server (requests w) team_url) as [e|resp]; [done|].
    exists resp. split; [done|].
    destruct ((400 <=? status_code resp)%Z && (status_code resp <? 600)%Z); [done|].
    cbn [requests sleeps stdout] in Hrun.
    destruct (sleep_error pause); [done|]. injection Hrun as <- _.
    destruct (sorted_spec
                (list_to_set
                   (map (fun href => urljoin root (Str.split_once "?" href).1)
                        (select_profile_anchors (soup_of resp)))))
      as (Hsorted & Hnodup & Hmem).
    split; [|done].
    intros u. fold root. rewrite Hmem, elem_of_list_to_set, map_fmap, list_elem_of_fmap.
    unfold select_profile_anchors. split.
    + intros (href & -> & Hin). apply list_elem_of_filter in Hin as [Hsel Hin].
      by exists href.
    + intros (href & Hin & Hsel & ->). exists href. split; [done|].
      by apply list_elem_of_filter.
  - intros path query Hpath. split.
    + by rewrite (split_once_found _ _ _ Hpath).
    + by rewrite (split_once_missing _ _ Hpath).
Qed.

Lemma team_urls_sorted_unique_witness :
  (exists urls,
     get_team_player_urls league_server https_scheme t_us_netloc join_path
       "https://t.us/fc/startseite/verein/1" 1%float fresh
     = (Ok urls, World ["https://t.us/fc/startseite/verein/1"] [1%float] [])
     /\ urls = ["https://t.us/a/profil/spieler/123"]
     /\ Sorted String.le urls
     /\ NoDup urls)
  /\ get_team_player_urls league_server https_scheme t_us_netloc join_path
       "https://t.us/fc/startseite/verein/1" 1e10%float fresh
     = (Raise sleep_overflow, World ["https://t.us/fc/startseite/verein/1"] [] []).
Proof.
  split.
  - destruct (team_urls_sorted_unique league_server https_scheme t_us_netloc join_path
                "https://t.us/fc/startseite/verein/1" 1%float fresh)
      as (Hreturns & Hshape & _).
    destruct (proj1 (Hreturns (mkResponse 200 "" league_page) eq_refl eq_refl) eq_refl)
      as (urls & Hrun).
    destruct (Hshape urls _ Hrun) as (resp & _ & _ & Hsorted & Hnodup).
    exists urls. split; [exact Hrun|]. split; [|split; [exact Hsorted|exact Hnodup]].
    vm_compute in Hrun. by injection Hrun as <-.
  - destruct (team_urls_sorted_unique league_server https_scheme t_us_netloc join_path
                "https://t.us/fc/startseite/verein/1" 1e10%float fresh)
      as (Hreturns & _ & _).
    exact (proj2 (Hreturns (mkResponse 200 "" league_page) eq_refl eq_refl)
             sleep_overflow eq_refl).
Defined.

(** * Further properties *)
(** ** Column names, the edges *)

Lemma traverse_Ok_inv {A B} (f : A -> result B) (l : list A) (out : list B) :
  traverse f l = Ok out -> Forall (fun x => exists y, f x = Ok y) l.
Proof.
  revert out. induction l as [|x l IH]; intros out; simpl; [constructor|].
  destruct (f x) as [y|e] eqn:Hy; simpl; [|done].
  destruct (traverse f l) as [ys|e]; simpl; [|done].
  intros _. constructor; [by exists y|]. by apply (IH ys).
Qed.

Lemma traverse_Raise_inv {A B} (f : A -> result B) (l : list A) (e : exn) :
  traverse f l = Raise e -> exists x, x ∈ l /\ f x = Raise e.
Proof.
  induction l as [|x l IH]; simpl; [done|].
  destruct (f x) as [y|e'] eqn:Hy; simpl.
  - destruct (traverse f l) as [ys|e'']; simpl; [done|].
    intros [= ->]. destruct (IH eq_refl) as (x' & Hin & Hx').
    exists x'. split; [by constructor|done].
  - intros [= ->]. exists x. split; [constructor|done].
Qed.

(** X1. [_flatten_columns] hands a plain index back as it is.  On a
    [MultiIndex] it returns names exactly when every entry is a pair, one
    name per entry; with an entry of another length it raises a
    [ValueError]. *)
Theorem flatten_columns_needs_pairs (tuples : list (list label)) :
  (forall labels, _flatten_columns (FlatIndex labels) = Ok labels)
  /\ ((exists names, _flatten_columns (MultiIndex tuples) = Ok names)
      <-> Forall (fun t => List.length t = 2) tuples)
  /\ (forall names, _flatten_columns (MultiIndex tuples) = Ok names ->
        List.length names = List.length tuples)
  /\ (forall e, _flatten_columns (MultiIndex tuples) = Raise e ->
        exn_kind e = ValueError /\ exists t, t ∈ tuples /\ List.length t <> 2).
Proof.
  split; [done|]. split; [|split].
  - split.
    + intros [names Hnames]. apply traverse_Ok_inv in Hnames.
      eapply Forall_impl; [exact Hnames|]. intros [|a [|b [|c t]]] [y Hy]; done.
    + intros Htwo. apply traverse_Ok.
      eapply Forall_impl; [exact Htwo|]. intros [|a [|b [|c t]]] Hlen; try done.
      by eexists.
  - intros names. apply traverse_length.
  - intros e He. apply traverse_Raise_inv in He as (t & Hin & Ht).
    destruct t as [|a [|b [|c t]]]; simpl in Ht; try done;
      injection Ht as <-; (split; [done|]); eexists; (split; [exact Hin|done]).
Qed.

Lemma flatten_columns_needs_pairs_witness :
  (exists names,
     _flatten_columns (MultiIndex [[LStr "Details"; LStr "Club"]]) = Ok names
     /\ List.length names = 1)
  /\ (exists e,
        _flatten_columns (MultiIndex [[LStr "a"; LStr "b"; LStr "c"]]) = Raise e
        /\ exn_kind e = ValueError).
Proof.
  split.
  - destruct (flatten_columns_needs_pairs [[LStr "Details"; LStr "Club"]])
      as (_ & [_ Hpairs] & Hlen & _).
    destruct Hpairs as [names Hnames]; [repeat constructor|].
    exists names. split; [exact Hnames|]. exact (Hlen names Hnames).
  - destruct (flatten_columns_needs_pairs [[LStr "a"; LStr "b"; LStr "c"]])
      as (_ & _ & _ & Hraise).
    eexists. split; [reflexivity|]. exact (proj1 (Hraise _ eq_refl)).
Defined.

(** ** The names of the history view *)

Lemma renamed_history_cases (l : label) :
  (l = LStr "From" /\ renamed history_names l = LStr "Start")
  \/ (l = LStr "Until" /\ renamed history_names l = LStr "End")
  \/ (l = LStr "Days" /\ renamed history_names l = LStr "Days Missed")
  \/ (l = LStr "Games missed" /\ renamed history_names l = LStr "Games Missed")
  \/ (l = LStr "Matches missed" /\ renamed history_names l = LStr "Games Missed")
  \/ ((l ∉ [LStr "From"; LStr "Until"; LStr "Days"; LStr "Games missed"; LStr "Matches missed"])
      /\ renamed history_names l = l).
Proof.
  unfold history_names. cbn [renamed].
  repeat (case_decide; [subst; tauto|]).
  do 5 right. split; [|done].
  intros Hin. repeat (apply elem_of_cons in Hin as [Hin|Hin]; [congruence|]).
  by apply elem_of_nil in Hin.
Qed.

(** X2. The renaming of the history view turns From, Until and Days into
    Start, End and Days Missed and both "Games missed" and "Matches
    missed" into "Games Missed", where they stand, so a table with both
    spellings ends with two columns of that name.  No source name is left,
    a column of another name keeps it, every column keeps its cells, and
    renaming twice is renaming once. *)
Theorem history_rename_canonical (df : list (label * Series)) :
  (forall i l s, df !! i = Some (l, s) ->
     rename history_names df !! i = Some (renamed history_names l, s))
  /\ renamed history_names (LStr "From") = LStr "Start"
  /\ renamed history_names (LStr "Until") = LStr "End"
  /\ renamed history_names (LStr "Days") = LStr "Days Missed"
  /\ renamed history_names (LStr "Games missed") = LStr "Games Missed"
  /\ renamed history_names (LStr "Matches missed") = LStr "Games Missed"
  /\ (forall l,
        l ∉ [LStr "From"; LStr "Until"; LStr "Days"; LStr "Games missed"; LStr "Matches missed"] ->
        renamed history_names l = l)
  /\ Forall (fun l => l ∉ columns (rename history_names df))
            [LStr "From"; LStr "Until"; LStr "Days"; LStr "Games missed"; LStr "Matches missed"]
  /\ rename history_names (rename history_names df) = rename history_names df.
Proof.
  split.
  { intros i l s Hi. unfold rename. by rewrite map_fmap, list_lookup_fmap, Hi. }
  do 5 (split; [reflexivity|]). split; [|split].
  - intros l Hl.
    destruct (renamed_history_cases l)
      as [[-> _]|[[-> _]|[[-> _]|[[-> _]|[[-> _]|[_ Hr]]]]]]; try done;
      exfalso; apply Hl; repeat constructor.
  - rewrite columns_rename.
    repeat (apply Forall_cons; split); [..|done];
      intros (l & Hl & _)%list_elem_of_fmap;
      destruct (renamed_history_cases l)
        as [[_ Hr]|[[_ Hr]|[[_ Hr]|[[_ Hr]|[[_ Hr]|[Hno Hr]]]]]];
      rewrite Hr in Hl; try discriminate;
      subst l; apply Hno; repeat constructor.
  - unfold rename. rewrite map_map. apply map_ext. intros [l s]. cbn [fst snd].
    f_equal.
    destruct (renamed_history_cases l)
      as [[_ ->]|[[_ ->]|[[_ ->]|[[_ ->]|[[_ ->]|[_ Hr]]]]]]; try reflexivity.
    by rewrite !Hr.
Qed.

Lemma history_rename_canonical_witness :
  rename history_names two_spellings !! 1 = Some (text_column "Games Missed" [Str "3"])
  /\ rename history_names two_spellings !! 2 = Some (text_column "Games Missed" [Str "3"])
  /\ rename history_names two_spellings !! 3 = Some (text_column "Season" [Str "21/22"]).
Proof.
  destruct (history_rename_canonical two_spellings) as (Hat & _ & _ & _ & _ & _ & Hkeep & _ & _).
  split; [exact (Hat 1 _ _ eq_refl)|]. split; [exact (Hat 2 _ _ eq_refl)|].
  pose proof (Hat 3 _ _ eq_refl) as H3. rewrite (Hkeep (LStr "Season")) in H3; [exact H3|].
  intros Hin. repeat (apply elem_of_cons in Hin as [Hin|Hin]; [discriminate Hin|]).
  by apply elem_of_nil in Hin.
Defined.

(** ** The final trim *)

Lemma strip_idemp (s : string) : Str.strip (Str.strip s) = Str.strip s.
Proof. apply clean_strip, strip_clean. Qed.

Lemma strip_cell_idemp (c : cell) : strip_cell (strip_cell c) = strip_cell c.
Proof. destruct c; simpl; [done| |done]. by rewrite strip_idemp. Qed.

Lemma strip_if_object_Ok (s s' : Series) :
  strip_if_object s = Ok s' ->
  (dtype_of s = numeric /\ s' = s)
  \/ (dtype_of s = object /\ s' = mkSeries object (map strip_cell (values s))).
Proof.
  unfold strip_if_object. case_bool_decide as Hd.
  - destruct (str_accessor_ok s); [|done]. intros [= <-]. by right.
  - intros [= <-]. left. split; [|done]. by destruct (dtype_of s).
Qed.

Lemma existsb_is_Num_stripped (cells : list cell) :
  existsb is_Num (map strip_cell cells) = false.
Proof. induction cells as [|[|s|z] cells IH]; simpl; done. Qed.

Lemma strip_if_object_idemp (s s' : Series) :
  strip_if_object s = Ok s' -> strip_if_object s' = Ok s'.
Proof.
  intros [[Hd ->]|[Hd ->]]%strip_if_object_Ok.
  - unfold strip_if_object. by rewrite Hd.
  - unfold strip_if_object, str_accessor_ok. cbn [dtype_of values].
    rewrite bool_decide_eq_true_2 by done.
    rewrite existsb_is_Num_stripped, orb_true_r. cbn [andb].
    do 2 f_equal. rewrite map_map. apply map_ext, strip_cell_idemp.
Qed.

Lemma apply_strip_trimmed (df out : list (label * Series)) :
  apply strip_if_object df = Ok out ->
  (forall l s t, (l, s) ∈ out -> dtype_of s = object -> Str t ∈ values s -> clean t)
  /\ apply strip_if_object out = Ok out.
Proof.
  intros Hout. pose proof (apply_Forall2 _ _ _ Hout) as Hall. split.
  - intros l s t Hin Hobj Ht.
    apply list_elem_of_lookup in Hin as [i Hi].
    destruct (Forall2_lookup_r _ _ _ _ _ Hall Hi) as ([l0 s0] & _ & _ & Hs).
    cbn [fst snd] in Hs.
    apply strip_if_object_Ok in Hs as [[Hd ->]|[Hd ->]]; [congruence|].
    cbn [values] in Ht. rewrite map_fmap in Ht.
    apply list_elem_of_fmap in Ht as (c & Hc & _).
    destruct c as [|s1|z]; simpl in Hc; try done.
    injection Hc as ->. apply strip_clean.
  - clear Hout. unfold apply. induction Hall as [|[l s] [l' s'] df out [Hl Hs] _ IH]; [done|].
    cbn [fst snd] in *. subst l'. cbn [traverse fst snd].
    rewrite (strip_if_object_idemp _ _ Hs). cbn [rbind].
    unfold apply in IH. by rewrite IH.
Qed.

(** X3. Every string of a table that [get_league_injuries] or
    [get_player_injury_history] returns is trimmed: in a column of dtype
    object no string begins or ends with a blank, and trimming the table
    once more raises nothing and changes nothing. *)
Theorem returned_text_is_trimmed server :
  (forall cn slug code (w w' : world) (out : list (label * Series)),
     get_league_injuries server cn slug code w = (Ok out, w') ->
     (forall l s t, (l, s) ∈ out -> dtype_of s = object -> Str t ∈ values s -> clean t)
     /\ apply strip_if_object out = Ok out)
  /\ (forall player_url (w w' : world) (out : list (label * Series)),
        get_player_injury_history server player_url w = (Ok out, w') ->
        (forall l s t, (l, s) ∈ out -> dtype_of s = object -> Str t ∈ values s -> clean t)
        /\ apply strip_if_object out = Ok out).
Proof.
  split.
  - intros cn slug code w w' out Hrun.
    destruct (get_league_injuries_Ok _ _ _ _ _ _ _ Hrun)
      as (url & resp & table & names & col & split_cols & rest & _ & _ & _ & _ & _ & _ & _ & Hout).
    by apply apply_strip_trimmed in Hout.
  - intros player_url w w' out Hrun.
    destruct (get_player_injury_history_Ok _ _ _ _ _ Hrun)
      as (resp & table & names & pieces & _ & _ & _ & _ & _ & Hout).
    by apply apply_strip_trimmed in Hout.
Qed.

Lemma returned_text_is_trimmed_witness :
  exists out w',
    get_league_injuries plain_league_server (Some "Spain") None None fresh = (Ok out, w')
    /\ column_of (LStr "Player") out = [Str "J. Doe"; Str "K. Roe"]
    /\ clean "K. Roe"
    /\ apply strip_if_object out = Ok out.
Proof.
  destruct (get_league_injuries plain_league_server (Some "Spain") None None fresh)
    as [[out|e] w'] eqn:Hrun; [|vm_compute in Hrun; discriminate Hrun].
  exists out, w'. split; [reflexivity|].
  destruct (returned_text_is_trimmed plain_league_server) as [Hleague _].
  destruct (Hleague _ _ _ _ _ _ Hrun) as [Hclean Hagain].
  vm_compute in Hrun. injection Hrun as <- <-.
  split; [reflexivity|]. split; [|exact Hagain].
  apply (Hclean (LStr "Player") (mkSeries object [Str "J. Doe"; Str "K. Roe"]) "K. Roe").
  - repeat constructor.
  - reflexivity.
  - repeat constructor.
Defined.

(** ** What fails, and when *)

Lemma getitem_str_missing (key : string) (df : list (label * Series)) :
  LStr key ∉ columns df ->
  getitem_str key df = Raise (Exn KeyError ("'" +:+ key +:+ "'")).
Proof.
  intros Hkey. unfold getitem_str.
  assert (filter (fun p : label * Series => p.1 = LStr key) df = []) as ->; [|done].
  induction df as [|[l s] df IH]; [done|].
  unfold columns in Hkey. cbn [map fst] in Hkey.
  apply not_elem_of_cons in Hkey as [Hl Hdf].
  rewrite filter_cons_False by (simpl; congruence). by apply IH.
Qed.

(** X4. [get_player_injury_history] is all or nothing.  After its one
    request it raises the transport's exception when the server cannot be
    reached, an [HTTPError] on a status from 400 to 599, a [RuntimeError]
    when the page has no table of class items, what [pd.read_html] raised
    when the table cannot be read, an [AttributeError] when the page has
    no heading, and a [ValueError] when the table already has a column
    "Player". *)
Theorem history_failures server (player_url : string) (w : world) :
  let run := get_player_injury_history server player_url w in
  let after := World (requests w ++ [injury_url_of player_url]) (sleeps w) (stdout w) in
  (forall e, server (requests w) (injury_url_of player_url) = Unreachable e ->
     run = (Raise e, after))
  /\ (forall resp,
        server (requests w) (injury_url_of player_url) = Answer resp ->
        (forall (Hstatus : ((400 <=? status_code resp) && (status_code resp <? 600))%Z = true),
           run = (Raise (Exn HTTPError (http_error_msg resp)), after))
        /\ (forall (Hstatus : ((400 <=? status_code resp) && (status_code resp <? 600))%Z = false),
              (table_items (soup_of resp) = None ->
               run = (Raise (Exn RuntimeError "Histórico de lesões não encontrado."), after))
              /\ (forall e, table_items (soup_of resp) = Some (Raise e) ->
                    run = (Raise e, after))
              /\ (forall table names,
                    table_items (soup_of resp) = Some (Ok table) ->
                    _flatten_columns (table_columns table) = Ok names ->
                    (h1 (soup_of resp) = None ->
                     run = (Raise (Exn AttributeError
                                     "'NoneType' object has no attribute 'get_text'"), after))
                    /\ (forall pieces,
                          h1 (soup_of resp) = Some pieces ->
                          LStr "Player" ∈ columns (rename history_names (set_columns table names)) ->
                          run = (Raise (Exn ValueError "cannot insert Player, already exists"),
                                 after))))).
Proof.
  intros run after. unfold run, after, get_player_injury_history. unfold_monad.
  split.
  { intros e ->. done. }
  intros resp ->. split.
  { intros ->. done. }
  intros ->. split; [by intros ->|]. split; [by intros e ->|].
  intros table names -> ->. split; [by intros ->|].
  intros pieces -> Hplayer. unfold insert0.
  by rewrite bool_decide_eq_true_2.
Qed.

Lemma history_failures_witness :
  get_player_injury_history offline "https://t.us/a/profil/spieler/1" fresh
  = (Raise (Exn RequestException "timed out"),
     World ["https://t.us/a/verletzungen/spieler/1"] [] [])
  /\ get_player_injury_history not_found_server "https://t.us/a/profil/spieler/1" fresh
     = (Raise (Exn HTTPError "404 Client Error: Not Found"),
        World ["https://t.us/a/verletzungen/spieler/1"] [] [])
  /\ get_player_injury_history tableless_server "https://t.us/a/profil/spieler/1" fresh
     = (Raise (Exn RuntimeError "Histórico de lesões não encontrado."),
        World ["https://t.us/a/verletzungen/spieler/1"] [] [])
  /\ get_player_injury_history league_server "https://t.us/a/profil/spieler/1" fresh
     = (Raise (Exn AttributeError "'NoneType' object has no attribute 'get_text'"),
        World ["https://t.us/a/verletzungen/spieler/1"] [] [])
  /\ get_player_injury_history named_server "https://t.us/a/profil/spieler/1" fresh
     = (Raise (Exn ValueError "cannot insert Player, already exists"),
        World ["https://t.us/a/verletzungen/spieler/1"] [] []).
Proof.
  split; [|split; [|split; [|split]]].
  - destruct (history_failures offline "https://t.us/a/profil/spieler/1" fresh) as [H _].
    exact (H _ eq_refl).
  - destruct (history_failures not_found_server "https://t.us/a/profil/spieler/1" fresh)
      as [_ H].
    exact (proj1 (H _ eq_refl) eq_refl).
  - destruct (history_failures tableless_server "https://t.us/a/profil/spieler/1" fresh)
      as [_ H].
    exact (proj1 (proj2 (H _ eq_refl) eq_refl) eq_refl).
  - destruct (history_failures league_server "https://t.us/a/profil/spieler/1" fresh)
      as [_ H].
    exact (proj1 (proj2 (proj2 (proj2 (H _ eq_refl) eq_refl))
                   league_table [LStr "Player/Position"; LStr "Club"] eq_refl eq_refl)
             eq_refl).
  - destruct (history_failures named_server "https://t.us/a/profil/spieler/1" fresh)
      as [_ H].
    apply (proj2 (proj2 (proj2 (proj2 (H _ eq_refl) eq_refl))
                    named_history [LStr "Player"; LStr "Injury"] eq_refl eq_refl)
             ["A. One"] eq_refl).
    repeat constructor.
Defined.

(** X5. Called with a slug and a code, [get_league_injuries] is all or
    nothing.  After its one request it raises the transport's exception
    when the server cannot be reached, an [HTTPError] on a status from 400
    to 599, a [RuntimeError] when the page has no table of class items,
    what [pd.read_html] raised when the table cannot be read, and a
    [KeyError] when the table has no column "Player/Position". *)
Theorem league_failures server (slug code : string) (w : world) :
  slug <> "" -> code <> "" ->
  let url := BASE_URL +:+ "/" +:+ slug +:+ "/verletztespieler/wettbewerb/" +:+ code in
  let run := get_league_injuries server None (Some slug) (Some code) w in
  let after := World (requests w ++ [url]) (sleeps w) (stdout w) in
  (forall e, server (requests w) url = Unreachable e -> run = (Raise e, after))
  /\ (forall resp,
        server (requests w) url = Answer resp ->
        (forall (Hstatus : ((400 <=? status_code resp) && (status_code resp <? 600))%Z = true),
           run = (Raise (Exn HTTPError (http_error_msg resp)), after))
        /\ (forall (Hstatus : ((400 <=? status_code resp) && (status_code resp <? 600))%Z = false),
              (table_items (soup_of resp) = None ->
               run = (Raise (Exn RuntimeError "Tabela de lesões não encontrada."), after))
              /\ (forall e, table_items (soup_of resp) = Some (Raise e) ->
                    run = (Raise e, after))
              /\ (forall table names,
                    table_items (soup_of resp) = Some (Ok table) ->
                    _flatten_columns (table_columns table) = Ok names ->
                    LStr "Player/Position" ∉ columns (set_columns table names) ->
                    run = (Raise (Exn KeyError "'Player/Position'"), after)))).
Proof.
  intros Hslug Hcode url run after.
  unfold run, after, get_league_injuries. unfold_monad.
  change (truthy None) with false. cbn [fst snd].
  rewrite (truthy_Some slug Hslug), (truthy_Some code Hcode).
  cbn [negb orb]. change (default "" (Some slug)) with slug.
  change (default "" (Some code)) with code. fold url.
  split.
  { intros e ->. done. }
  intros resp ->. split.
  { intros ->. done. }
  intros ->. split; [by intros ->|]. split; [by intros e ->|].
  intros table names -> -> Hmissing.
  unfold split_player_position. by rewrite (getitem_str_missing _ _ Hmissing).
Qed.

Lemma league_failures_witness :
  get_league_injuries offline None (Some "laliga") (Some "ES1") fresh
  = (Raise (Exn RequestException "timed out"),
     World ["https://www.transfermarkt.us/laliga/verletztespieler/wettbewerb/ES1"] [] [])
  /\ get_league_injuries tableless_server None (Some "laliga") (Some "ES1") fresh
     = (Raise (Exn RuntimeError "Tabela de lesões não encontrada."),
        World ["https://www.transfermarkt.us/laliga/verletztespieler/wettbewerb/ES1"] [] [])
  /\ get_league_injuries lenient_server None (Some "laliga") (Some "ES1") fresh
     = (Raise (Exn KeyError "'Player/Position'"),
        World ["https://www.transfermarkt.us/laliga/verletztespieler/wettbewerb/ES1"] [] []).
Proof.
  assert ("laliga" <> "") as Hslug by discriminate.
  assert ("ES1" <> "") as Hcode by discriminate.
  split; [|split].
  - destruct (league_failures offline "laliga" "ES1" fresh Hslug Hcode) as [H _].
    exact (H _ eq_refl).
  - destruct (league_failures tableless_server "laliga" "ES1" fresh Hslug Hcode) as [_ H].
    exact (proj1 (proj2 (H _ eq_refl) eq_refl) eq_refl).
  - destruct (league_failures lenient_server "laliga" "ES1" fresh Hslug Hcode) as [_ H].
    apply (proj2 (proj2 (proj2 (H _ eq_refl) eq_refl))
             knee_history [LStr "Season"; LStr "Injury"; LStr "Days"] eq_refl eq_refl).
    intros Hin. vm_compute in Hin.
    repeat (apply elem_of_cons in Hin as [Hin|Hin]; [discriminate Hin|]).
    by apply elem_of_nil in Hin.
Defined.

(** X6. [get_league_injuries] never sleeps and never prints.  Either it
    raises one of its two configuration errors and leaves the world as it
    was, or it makes exactly one request, to the injuries page of a league
    given by a non-empty slug and a non-empty code. *)
Theorem league_single_request server (cn slug code : option string) (w : world) :
  let run := get_league_injuries server cn slug code w in
  run = (Raise unmapped_country, w)
  \/ run = (Raise missing_slug_or_code, w)
  \/ exists s c,
       s <> "" /\ c <> ""
       /\ run.2 = World (requests w ++ [BASE_URL +:+ "/" +:+ s
                                        +:+ "/verletztespieler/wettbewerb/" +:+ c])
                        (sleeps w) (stdout w).
Proof.
  intros run. unfold run, get_league_injuries. unfold_monad.
  destruct (truthy cn).
  - destruct (LEAGUE_MAP !! default "" cn) as [[s c]|]; [|by left].
    cbn [fst snd]. destruct s as [|a s]; [by right; left|].
    destruct c as [|b c]; [by right; left|].
    right. right. exists (String a s), (String b c). split; [done|]. split; [done|].
    cbn [truthy negb orb]. change (default "" (Some ?x)) with x.
    run_cases; done.
  - cbn [fst snd]. destruct slug as [[|a s]|]; [by right; left| |by right; left].
    destruct code as [[|b c]|]; [by right; left| |by right; left].
    right. right. exists (String a s), (String b c). split; [done|]. split; [done|].
    cbn [truthy negb orb]. change (default "" (Some ?x)) with x.
    run_cases; done.
Qed.

(** Every entry of [LEAGUE_MAP]. *)
Lemma LEAGUE_MAP_entries (country slug code : string) :
  LEAGUE_MAP !! country = Some (slug, code) ->
  (country, (slug, code))
  ∈ [ ("Spain", ("laliga", "ES1")); ("England", ("premier-league", "GB1"));
      ("Italy", ("serie-a", "IT1")); ("Germany", ("bundesliga", "L1"));
      ("France", ("ligue-1", "FR1")) ].
Proof. apply elem_of_list_to_map_2. Qed.

(** X7. For a country of [LEAGUE_MAP] the slug and code of the map are
    used and a slug or code passed along is ignored: the one request goes
    to the injuries page of the mapped league. *)
Theorem mapped_country_overrides server (country slug code : string)
    (league_slug league_code : option string) (w : world) :
  LEAGUE_MAP !! country = Some (slug, code) ->
  requests (get_league_injuries server (Some country) league_slug league_code w).2
  = requests w ++ [BASE_URL +:+ "/" +:+ slug +:+ "/verletztespieler/wettbewerb/" +:+ code].
Proof.
  intros Hmap. pose proof (LEAGUE_MAP_entries _ _ _ Hmap) as Hin.
  assert (country <> "" /\ slug <> "" /\ code <> "") as (Hc & Hs & Hk).
  { repeat (apply elem_of_cons in Hin as [Hin|Hin]; [by simplify_eq|]).
    by apply elem_of_nil in Hin. }
  unfold get_league_injuries. unfold_monad.
  rewrite (truthy_Some country Hc). change (default "" (Some country)) with country.
  rewrite Hmap. cbn [fst snd]. rewrite (truthy_Some slug Hs), (truthy_Some code Hk).
  cbn [negb orb]. change (default "" (Some slug)) with slug.
  change (default "" (Some code)) with code.
  run_cases; done.
Qed.

Lemma mapped_country_overrides_witness :
  requests (get_league_injuries offline (Some "Germany") (Some "laliga") (Some "ES1") fresh).2
  = ["https://www.transfermarkt.us/bundesliga/verletztespieler/wettbewerb/L1"].
Proof.
  exact (mapped_country_overrides offline "Germany" "bundesliga" "L1"
           (Some "laliga") (Some "ES1") fresh eq_refl).
Defined.

(** ** The roster links, the edges *)

(** X8. [get_team_player_urls] makes exactly one request, to the team
    URL, and prints nothing.  It sleeps once, for [pause], exactly when it
    returns a list: a failed fetch is not followed by a pause, and a pause
    that [time.sleep] refuses makes the call raise after the fetch what
    [time.sleep] raised, a [ValueError] for a negative pause whose count
    of nanoseconds fits 64 bits. *)
Theorem team_urls_effects server urlparse_scheme urlparse_netloc urljoin
    (team_url : string) (pause : float) (w : world) :
  let run :=
    get_team_player_urls server urlparse_scheme urlparse_netloc urljoin team_url pause w in
  requests run.2 = requests w ++ [team_url]
  /\ stdout run.2 = stdout w
  /\ (forall urls, run.1 = Ok urls -> sleeps run.2 = sleeps w ++ [pause])
  /\ (forall e, run.1 = Raise e -> sleeps run.2 = sleeps w)
  /\ (forall resp,
        server (requests w) team_url = Answer resp ->
        ((400 <=? status_code resp) && (status_code resp <? 600))%Z = false ->
        (forall e, sleep_error pause = Some e -> run.1 = Raise e)
        /\ (PrimFloat.is_nan pause = false ->
            PrimFloat.leb (-9223372036854775808)%float (PrimFloat.mul pause 1e9%float) = true ->
            PrimFloat.ltb (PrimFloat.mul pause 1e9%float) 0%float = true ->
            PrimFloat.ltb (PrimFloat.mul pause 1e9%float) 9223372036854775808%float = true ->
            run.1 = Raise sleep_refused)).
Proof.
  intros run. unfold run, get_team_player_urls. unfold_monad.
  destruct (server (requests w) team_url) as [e|resp];
    [repeat split; intros; by simplify_eq|].
  destruct ((400 <=? status_code resp)%Z && (status_code resp <? 600)%Z) eqn:Hs;
    [repeat split; intros; simplify_eq; try done; congruence|].
  cbn [requests sleeps stdout].
  assert (PrimFloat.is_nan pause = false ->
          PrimFloat.leb (-9223372036854775808)%float (PrimFloat.mul pause 1e9%float) = true ->
          PrimFloat.ltb (PrimFloat.mul pause 1e9%float) 0%float = true ->
          PrimFloat.ltb (PrimFloat.mul pause 1e9%float) 9223372036854775808%float = true ->
          sleep_error pause = Some sleep_refused) as Hneg.
  { intros Hnan Hmin Hlt Hmax. unfold sleep_error. cbv zeta. by rewrite Hnan, Hmin, Hmax, Hlt. }
  destruct (sleep_error pause) as [e|]; do 4 (split; [done|]); intros resp' _ _.
  - split; [by intros e' [= ->]|].
    intros H1 H2 H3 H4. by injection (Hneg H1 H2 H3 H4) as ->.
  - split; [done|]. intros H1 H2 H3 H4. by specialize (Hneg H1 H2 H3 H4).
Qed.

Lemma team_urls_effects_witness :
  get_team_player_urls league_server https_scheme t_us_netloc join_path
    "https://t.us/fc/startseite/verein/1" (-1)%float fresh
  = (Raise sleep_refused, World ["https://t.us/fc/startseite/verein/1"] [] [])
  /\ (get_team_player_urls league_server https_scheme t_us_netloc join_path
        "https://t.us/fc/startseite/verein/1" (-1e10)%float fresh).1
     = Raise sleep_overflow
  /\ (get_team_player_urls league_server https_scheme t_us_netloc join_path
        "https://t.us/fc/startseite/verein/1" nan fresh).1
     = Raise sleep_nan.
Proof.
  split; [|split].
  - destruct (team_urls_effects league_server https_scheme t_us_netloc join_path
                "https://t.us/fc/startseite/verein/1" (-1)%float fresh)
      as (Hreq & Hout & _ & Hsleep & Hrefused).
    destruct (Hrefused (mkResponse 200 "" league_page) eq_refl eq_refl) as [_ Hneg].
    specialize (Hneg eq_refl eq_refl eq_refl eq_refl).
    specialize (Hsleep _ Hneg).
    destruct (get_team_player_urls league_server https_scheme t_us_netloc join_path
                "https://t.us/fc/startseite/verein/1" (-1)%float fresh) as [r [rs ss ps]].
    cbn [fst snd requests sleeps stdout fresh app] in *. by subst.
  - destruct (team_urls_effects league_server https_scheme t_us_netloc join_path
                "https://t.us/fc/startseite/verein/1" (-1e10)%float fresh)
      as (_ & _ & _ & _ & Hrefused).
    exact (proj1 (Hrefused (mkResponse 200 "" league_page) eq_refl eq_refl) _ eq_refl).
  - destruct (team_urls_effects league_server https_scheme t_us_netloc join_path
                "https://t.us/fc/startseite/verein/1" nan fresh)
      as (_ & _ & _ & _ & Hrefused).
    exact (proj1 (Hrefused (mkResponse 200 "" league_page) eq_refl eq_refl) _ eq_refl).
Defined.

Lemma sorted_nil (urls : gset string) : sorted urls = [] <-> urls = ∅.
Proof.
  destruct (sorted_spec urls) as (_ & _ & Hmem). split.
  - intros Hnil. apply set_eq. intros u. rewrite <-Hmem, Hnil.
    split; intros Hu; [by apply elem_of_nil in Hu|by apply not_elem_of_empty in Hu].
  - intros ->. destruct (sorted ∅) as [|u l] eqn:Hs; [done|].
    exfalso. destruct (sorted_spec ∅) as (_ & _ & Hmem').
    apply (not_elem_of_empty (C:=gset string) u), Hmem'. rewrite Hs. constructor.
Qed.

(** X9. On a fetched team page and with a pause that [time.sleep]
    accepts, [get_team_player_urls] returns at most as many URLs as the
    page has anchors to player profiles, and the empty list, not an error,
    exactly when it has none. *)
Theorem team_urls_bounded server urlparse_scheme urlparse_netloc urljoin
    (team_url : string) (pause : float) (w : world) (resp : Response) :
  server (requests w) team_url = Answer resp ->
  ((400 <=? status_code resp) && (status_code resp <? 600))%Z = false ->
  sleep_error pause = None ->
  exists urls,
    (get_team_player_urls server urlparse_scheme urlparse_netloc urljoin team_url pause w).1
    = Ok urls
    /\ List.length urls <= List.length (select_profile_anchors (soup_of resp))
    /\ (urls = [] <->
        Forall (fun href => Str.contains "/profil/spieler/" href = false)
               (anchors (soup_of resp))).
Proof.
  intros Hresp Hstatus Hpause. unfold get_team_player_urls. unfold_monad.
  rewrite Hresp, Hstatus. cbn [requests sleeps stdout]. rewrite Hpause. cbn [fst].
  set (root := urlparse_scheme team_url +:+ "://" +:+ urlparse_netloc team_url).
  set (links := map (fun href => urljoin root (Str.split_once "?" href).1)
                    (select_profile_anchors (soup_of resp))).
  eexists. split; [reflexivity|].
  destruct (sorted_spec (list_to_set links)) as (_ & Hnodup & Hmem).
  split.
  - assert (List.length links = List.length (select_profile_anchors (soup_of resp))) as <-
      by apply length_map.
    apply submseteq_length, NoDup_submseteq; [done|].
    intros u Hu. apply Hmem in Hu. by apply elem_of_list_to_set in Hu.
  - rewrite sorted_nil. split.
    + intros Hempty. apply Forall_forall. intros href Hin.
      destruct (Str.contains "/profil/spieler/" href) eqn:Hsel; [|done].
      exfalso. apply (not_elem_of_empty (C:=gset string) (urljoin root (Str.split_once "?" href).1)).
      rewrite <-Hempty. apply elem_of_list_to_set. unfold links.
      rewrite map_fmap.
      apply (list_elem_of_fmap_2 (fun href => urljoin root (Str.split_once "?" href).1)).
      unfold select_profile_anchors. by apply list_elem_of_filter.
    + intros Hnone. unfold links, select_profile_anchors.
      assert (filter (fun href => Str.contains "/profil/spieler/" href = true)
                     (anchors (soup_of resp)) = []) as ->; [|done].
      induction Hnone as [|href l Hhref _ IH]; [done|].
      rewrite filter_cons_False by congruence. exact IH.
Qed.

Lemma team_urls_bounded_witness :
  exists urls,
    (get_team_player_urls tableless_server https_scheme t_us_netloc join_path
       "https://t.us/fc/startseite/verein/1" 1%float fresh).1 = Ok urls
    /\ urls = [].
Proof.
  destruct (team_urls_bounded tableless_server https_scheme t_us_netloc join_path
              "https://t.us/fc/startseite/verein/1" 1%float fresh
              (mkResponse 200 "" (Page None [] (Some ["A. One"]))) eq_refl eq_refl eq_refl)
    as (urls & Hrun & _ & Hempty).
  exists urls. split; [exact Hrun|]. apply Hempty. constructor.
Defined.

(** X10. The list [get_team_player_urls] returns depends on which links
    the page holds, not on their order nor on how often each occurs: two
    fetched pages with the same anchors, in any order and number, give the
    same result. *)
Theorem team_urls_ignore_order server1 server2 urlparse_scheme urlparse_netloc urljoin
    (team_url : string) (pause : float) (w1 w2 : world) (resp1 resp2 : Response) :
  server1 (requests w1) team_url = Answer resp1 ->
  server2 (requests w2) team_url = Answer resp2 ->
  ((400 <=? status_code resp1) && (status_code resp1 <? 600))%Z = false ->
  ((400 <=? status_code resp2) && (status_code resp2 <? 600))%Z = false ->
  (forall href, href ∈ anchors (soup_of resp1) <-> href ∈ anchors (soup_of resp2)) ->
  (get_team_player_urls server1 urlparse_scheme urlparse_netloc urljoin team_url pause w1).1
  = (get_team_player_urls server2 urlparse_scheme urlparse_netloc urljoin team_url pause w2).1.
Proof.
  intros Hresp1 Hresp2 Hs1 Hs2 Hsame. unfold get_team_player_urls. unfold_monad.
  rewrite Hresp1, Hresp2, Hs1, Hs2. cbn [requests sleeps stdout].
  destruct (sleep_error pause); [done|]. cbn [fst].
  apply (f_equal Ok), (f_equal sorted).
  apply set_eq. intros u. rewrite !elem_of_list_to_set, !map_fmap, !list_elem_of_fmap.
  unfold select_profile_anchors.
  split; intros (href & -> & [Hsel Hin]%list_elem_of_filter); exists href;
    (split; [done|]); apply list_elem_of_filter; (split; [done|]); by apply Hsame.
Qed.

Lemma team_urls_ignore_order_witness :
  (get_team_player_urls league_server https_scheme t_us_netloc join_path
     "https://t.us/fc/startseite/verein/1" 1%float fresh).1
  = (get_team_player_urls shuffled_server https_scheme t_us_netloc join_path
       "https://t.us/fc/startseite/verein/1" 1%float fresh).1.
Proof.
  apply (team_urls_ignore_order league_server shuffled_server https_scheme t_us_netloc
           join_path "https://t.us/fc/startseite/verein/1" 1%float fresh fresh
           (mkResponse 200 "" league_page) (mkResponse 200 "" shuffled_page)
           eq_refl eq_refl eq_refl eq_refl).
  intros href. cbn [anchors soup_of league_page shuffled_page].
  split; intros Hin;
    repeat (apply elem_of_cons in Hin as [->|Hin]; [repeat constructor|]);
    by apply elem_of_nil in Hin.
Defined.

(** ** The history URL, the edges *)

Lemma rstrip_slashes_app (url : string) (n : nat) :
  Str.rstrip "/" (url +:+ slashes n) = Str.rstrip "/" url.
Proof.
  apply (Trimmed_functional (url +:+ slashes n)); [apply rstrip_slashes|].
  destruct (rstrip_slashes url) as [[k Hk] Hend]. split; [|done].
  exists (k + n). by rewrite slashes_add, <-app_assoc_str, <-Hk.
Qed.

Lemma re_sub_absent pat repl (s : string) :
  pat <> "" -> ~ occurs pat s -> Str.re_sub pat repl s = s.
Proof.
  intros Hpat Hnone. apply (Replaced_functional pat repl s).
  - by apply re_sub_Replaced.
  - by apply Replaced_none.
Qed.

(** X11. Slashes at the end of the player URL do not matter to the
    request: with any number of them added, [get_player_injury_history]
    requests the same history URL. *)
Theorem history_url_ignores_trailing_slashes server (player_url : string) (n : nat)
    (w : world) :
  injury_url_of (player_url +:+ slashes n) = injury_url_of player_url
  /\ requests (get_player_injury_history server (player_url +:+ slashes n) w).2
     = requests (get_player_injury_history server player_url w).2.
Proof.
  assert (injury_url_of (player_url +:+ slashes n) = injury_url_of player_url) as Heq.
  { unfold injury_url_of. by rewrite rstrip_slashes_app. }
  split; [exact Heq|]. by rewrite !get_player_injury_history_world, Heq.
Qed.

(** X12. A URL that holds no "/profil/" is requested as it is, less its
    trailing slashes: nothing is raised for it.  So is a URL that ends in
    "/profil" followed by slashes only, since the slashes are trimmed
    before "/profil/" is looked for. *)
Theorem history_url_without_profile server (player_url : string) (w : world) :
  (~ occurs "/profil/" player_url ->
   requests (get_player_injury_history server player_url w).2
   = requests w ++ [Str.rstrip "/" player_url])
  /\ (forall a n,
        player_url = a +:+ "/profil" +:+ slashes n ->
        ~ occurs "/profil/" (a +:+ "/profil") ->
        requests (get_player_injury_history server player_url w).2
        = requests w ++ [a +:+ "/profil"]).
Proof.
  rewrite get_player_injury_history_world. cbn [requests]. unfold injury_url_of. split.
  - intros Hnone. rewrite re_sub_absent; [done|done|].
    intros (u & v & Huv). apply Hnone.
    destruct (rstrip_slashes player_url) as [[k Hk] _].
    exists u, (v +:+ slashes k). rewrite Hk at 1. by rewrite Huv, !app_assoc_str.
  - intros a n -> Hnone.
    rewrite <-app_assoc_str, rstrip_slashes_app.
    assert (Str.rstrip "/" (a +:+ "/profil") = a +:+ "/profil") as ->.
    { apply (Trimmed_functional (a +:+ "/profil")); [apply rstrip_slashes|]. split.
      - exists 0. by rewrite app_empty_r.
      - intros t' Heq. destruct (ends_with_slash_tail a "/profil" t') as [b' Hb']; [done|done|].
        by destruct (proj2 (rstrip_slashes "/profil") b'). }
    by rewrite re_sub_absent.
Qed.

Lemma history_url_without_profile_witness :
  requests (get_player_injury_history offline "https://t.us/a/spieler/1/" fresh).2
  = ["https://t.us/a/spieler/1"]
  /\ requests (get_player_injury_history offline "https://t.us/a/profil//" fresh).2
     = ["https://t.us/a/profil"].
Proof.
  split.
  - destruct (history_url_without_profile offline "https://t.us/a/spieler/1/" fresh) as [H _].
    apply H. intros Hocc. apply contains_occurs in Hocc. discriminate Hocc.
  - destruct (history_url_without_profile offline "https://t.us/a/profil//" fresh) as [_ H].
    apply (H "https://t.us/a" 2 eq_refl).
    intros Hocc. apply contains_occurs in Hocc. discriminate Hocc.
Defined.

(** ** The split, read backwards *)

Lemma split_once_joins sep (s : string) :
  Str.mem sep (Str.split_once sep s).1 = false
  /\ s = match (Str.split_once sep s).2 with
         | None => (Str.split_once sep s).1
         | Some b => (Str.split_once sep s).1 +:+ String sep b
         end.
Proof.
  split; [apply split_once_fst_no_sep|].
  induction s as [|c s IH]; [done|]. simpl.
  destruct (Ascii.eqb c sep) eqn:Hc.
  - apply Ascii.eqb_eq in Hc as ->. done.
  - destruct (Str.split_once sep s) as [a [b|]]; simpl in *.
    + by rewrite app_cons, <-IH.
    + by rewrite <-IH.
Qed.

(** X13. Nothing of a "Player/Position" value is lost in the split, and
    no row: the Player and Position columns have a cell for every row of
    the source column; where the source cell is a string, Player holds a
    text without newline, and the source is that text when Position is
    missing, that text, a newline and the Position otherwise; where the
    source cell is no string, both are missing. *)
Theorem player_position_round_trip (df : list (label * Series)) (col : Series) :
  getitem_str "Player/Position" df = Ok col ->
  values col <> [] ->
  exists split_cols,
    split_player_position df = Ok split_cols
    /\ List.length (column_of (LStr "Player") split_cols) = List.length (values col)
    /\ List.length (column_of (LStr "Position") split_cols) = List.length (values col)
    /\ forall i c,
         values col !! i = Some c ->
         match c with
         | Str s =>
             exists a,
               column_of (LStr "Player") split_cols !! i = Some (Str a)
               /\ Str.mem Str.newline a = false
               /\ ((column_of (LStr "Position") split_cols !! i = Some NA /\ s = a)
                   \/ exists b,
                        column_of (LStr "Position") split_cols !! i = Some (Str b)
                        /\ s = a +:+ String Str.newline b)
         | _ =>
             column_of (LStr "Player") split_cols !! i = Some NA
             /\ column_of (LStr "Position") split_cols !! i = Some NA
         end.
Proof.
  intros Hcol Hrows. eexists. split; [by apply (split_player_position_rows df col)|].
  set (parts := map (split_cell Str.newline) (values col)).
  change (column_of (LStr "Player") _) with (map first_part parts).
  change (column_of (LStr "Position") _) with (map second_part parts).
  unfold parts. rewrite !length_map. split; [done|]. split; [done|].
  intros i c Hi. rewrite !map_fmap, !list_lookup_fmap, Hi.
  cbn [fmap option_fmap option_map]. destruct c as [|s|z]; [done| |done].
  cbn [split_cell]. destruct (split_once_joins Str.newline s) as [Hmem Hjoin].
  destruct (Str.split_once Str.newline s) as [a [b|]]; cbn [fst snd] in *.
  - exists a. split; [done|]. split; [done|]. right. by exists b.
  - exists a. split; [done|]. split; [done|]. by left.
Qed.

Lemma player_position_round_trip_witness :
  let df := set_columns league_table [LStr "Player/Position"; LStr "Club"] in
  exists split_cols,
    split_player_position df = Ok split_cols
    /\ List.length (column_of (LStr "Player") split_cols) = 2
    /\ List.length (column_of (LStr "Position") split_cols) = 2.
Proof.
  intros df.
  destruct (player_position_round_trip df
              (mkSeries object [Str ("J. Doe" +:+ String Str.newline "Midfielder"); Str "K. Roe"])
              eq_refl) as (split_cols & Hrun & Hplayer & Hposition & _); [discriminate|].
  exists split_cols. split; [exact Hrun|]. split; [exact Hplayer|exact Hposition].
Defined.

(** ** The layout of the league view *)

Lemma columns_filter (key : label) (df : list (label * Series)) :
  columns (filter (fun p => p.1 <> key) df) = filter (fun l => l <> key) (columns df).
Proof.
  unfold columns. induction df as [|[l s] df IH]; [done|].
  cbn [map fst]. destruct (decide (l = key)) as [->|Hne].
  - rewrite !filter_cons_False by (simpl; tauto). exact IH.
  - rewrite !filter_cons_True by done. cbn [map fst]. by rewrite IH.
Qed.

Lemma renamed_league_not_combined (l : label) :
  l <> LStr "Player/Position" -> renamed league_names l <> LStr "Player/Position".
Proof.
  intros Hl.
  destruct (renamed_league_cases l) as [[_ ->]|[[_ ->]|[[_ ->]|[[_ ->]|[_ ->]]]]]; done.
Qed.

Lemma strip_if_object_length (s s' : Series) :
  strip_if_object s = Ok s' -> List.length (values s') = List.length (values s).
Proof.
  intros [[_ ->]|[_ ->]]%strip_if_object_Ok; [done|]. cbn [values]. apply length_map.
Qed.

(** X14. In the table [get_league_injuries] returns the column
    "Player/Position" is gone.  When the source table has rows, the
    columns are those of the source without it, under their canonical
    names and in their order, followed by "Player" and "Position", each
    with one cell for every row of the source column. *)
Theorem league_frame_layout server cn slug code (w w' : world) (out : list (label * Series)) :
  get_league_injuries server cn slug code w = (Ok out, w') ->
  (LStr "Player/Position" ∉ columns out)
  /\ exists url resp table names col,
       requests w' = requests w ++ [url]
       /\ server (requests w) url = Answer resp
       /\ table_items (soup_of resp) = Some (Ok table)
       /\ _flatten_columns (table_columns table) = Ok names
       /\ getitem_str "Player/Position" (set_columns table names) = Ok col
       /\ (values col <> [] ->
           exists front player position,
             out = front ++ [(LStr "Player", player); (LStr "Position", position)]
             /\ columns front
                = map (renamed league_names)
                      (filter (fun l => l <> LStr "Player/Position")
                              (columns (set_columns table names)))
             /\ List.length (values player) = List.length (values col)
             /\ List.length (values position) = List.length (values col)).
Proof.
  intros Hrun.
  destruct (get_league_injuries_Ok _ _ _ _ _ _ _ Hrun)
    as (url & resp & table & names & col & split_cols & rest
        & -> & Hresp & Htable & Hnames & Hcol & Hsplit & Hdrop & Hout).
  assert (rest = filter (fun p => p.1 <> LStr "Player/Position") (set_columns table names))
    as Hrest.
  { unfold drop in Hdrop. case_bool_decide; by simplify_eq. }
  split.
  - rewrite (apply_columns _ _ _ Hout), columns_rename. unfold concat_axis1, columns.
    rewrite map_app, map_app. fold (columns rest). fold (columns split_cols).
    intros [Hin|Hin]%elem_of_app.
    + rewrite Hrest, columns_filter, map_fmap in Hin.
      apply list_elem_of_fmap in Hin as (l & Hl & [Hne _]%list_elem_of_filter).
      by apply (renamed_league_not_combined l).
    + destruct (split_player_position_last _ _ _ Hcol Hsplit) as (front & -> & Hfront).
      unfold columns in Hin. rewrite map_app, map_app in Hin.
      destruct Hfront as [->|[s ->]]; cbn in Hin;
        repeat (apply elem_of_cons in Hin as [Hin|Hin]; [discriminate Hin|]);
        by apply elem_of_nil in Hin.
  - exists url, resp, table, names, col. repeat (split; [done|]).
    intros Hrows.
    rewrite (split_player_position_rows _ _ Hcol Hrows) in Hsplit. injection Hsplit as <-.
    unfold concat_axis1, rename, apply in Hout. rewrite map_app in Hout.
    apply traverse_app_inv in Hout as (front & tail & -> & Hfront & Htail).
    cbn [map traverse fst snd] in Htail.
    destruct (strip_if_object _) as [player|] eqn:Hplayer in Htail; [|done].
    cbn [rbind] in Htail.
    destruct (strip_if_object _) as [position|] eqn:Hposition in Htail; [|done].
    cbn [rbind] in Htail. injection Htail as <-.
    exists front, player, position. split; [done|]. split; [|split].
    + fold (apply strip_if_object
              (map (fun p : label * Series => (renamed league_names p.1, p.2)) rest)) in Hfront.
      rewrite (apply_columns _ _ _ Hfront).
      fold (rename league_names rest). by rewrite columns_rename, Hrest, columns_filter.
    + rewrite (strip_if_object_length _ _ Hplayer). cbn [values]. by rewrite !length_map.
    + rewrite (strip_if_object_length _ _ Hposition). cbn [values]. by rewrite !length_map.
Qed.

Lemma league_frame_layout_witness :
  exists out w',
    get_league_injuries league_server (Some "Spain") None None fresh = (Ok out, w')
    /\ (LStr "Player/Position" ∉ columns out)
    /\ columns out = [LStr "Team"; LStr "Player"; LStr "Position"].
Proof.
  destruct (get_league_injuries league_server (Some "Spain") None None fresh)
    as [[out|e] w'] eqn:Hrun; [|vm_compute in Hrun; discriminate Hrun].
  exists out, w'. split; [reflexivity|].
  destruct (league_frame_layout _ _ _ _ _ _ _ Hrun) as [Hgone _].
  split; [exact Hgone|].
  vm_compute in Hrun. by injection Hrun as <- <-.
Defined.

(** ** The batch, the edges *)

Lemma outcomes_split (outs : list (string * result (list (label * Series)))) :
  List.length (successes outs) + List.length (failures outs) = List.length outs.
Proof.
  unfold successes, failures.
  induction outs as [|[url [df|ex]] outs IH]; simpl; lia.
Qed.

Lemma pauses_accepted (pause : float) (outs : list (string * result (list (label * Series)))) :
  sleep_error pause = None ->
  pauses pause outs = replicate (List.length (successes outs)) pause.
Proof.
  intros Hpause. unfold pauses, successes. rewrite Hpause.
  induction outs as [|[url [df|ex]] outs IH]; simpl; [done| |done].
  by rewrite IH.
Qed.

(** X15. With a pause that [time.sleep] accepts the batch sleeps once
    behind every URL that gave a table and not at all behind one that
    failed; every URL either gives a table or a line of warning, never
    both, never neither. *)
Theorem batch_pauses_after_success server (player_urls : list string) (pause : float)
    (w : world) :
  sleep_error pause = None ->
  let outs := outcomes server (requests w) player_urls in
  let run := get_multiple_players_injury_history server player_urls pause w in
  sleeps run.2 = sleeps w ++ replicate (List.length (successes outs)) pause
  /\ List.length (stdout run.2) = List.length (stdout w) + List.length (failures outs)
  /\ List.length (successes outs) + List.length (failures outs) = List.length player_urls.
Proof.
  intros Hpause outs run. unfold run.
  rewrite get_multiple_players_injury_history_run. fold outs. cbn [snd sleeps stdout].
  split; [by rewrite pauses_accepted|]. split.
  - rewrite length_app, (warnings_of_failures _ _ Hpause). by rewrite length_map.
  - rewrite outcomes_split. unfold outs.
    by rewrite <-(outcomes_urls server (requests w) player_urls) at 2; rewrite length_map.
Qed.

Lemma batch_pauses_after_success_witness :
  let urls := [ "https://t.us/a/profil/spieler/1"; "https://t.us/b/profil/spieler/2";
                "https://t.us/c/profil/spieler/3" ] in
  let run := get_multiple_players_injury_history history_server urls 1%float fresh in
  sleeps run.2 = [1%float; 1%float] /\ List.length (stdout run.2) = 1.
Proof.
  intros urls run.
  destruct (batch_pauses_after_success history_server urls 1%float fresh eq_refl)
    as (Hsleeps & Hlines & _).
  fold run in Hsleeps, Hlines. split.
  - rewrite Hsleeps. vm_compute. reflexivity.
  - rewrite Hlines. vm_compute. reflexivity.
Defined.

Lemma warnings_refused (pause : float) (e : exn)
    (outs : list (string * result (list (label * Series)))) :
  sleep_error pause = Some e ->
  warnings pause outs
  = map (fun o => warning o.1 (match o.2 with Ok _ => e | Raise ex => ex end)) outs
  /\ pauses pause outs = [].
Proof.
  intros Hpause. unfold warnings, pauses. rewrite Hpause.
  induction outs as [|[url [df|ex]] outs [IH1 IH2]]; simpl; [done| |]; by rewrite IH1.
Qed.

(** X16. With a pause that [time.sleep] refuses, be it negative, NaN or
    too long for 64 bits of nanoseconds, the batch still visits every URL
    and, the server replying alike, returns what it returns with any other
    pause, since a table is kept before the pause is tried; it never
    sleeps, and it prints one line for every URL, for a URL that succeeded
    with the refusal as the reason. *)
Theorem batch_with_refused_pause server (player_urls : list string) (pause : float)
    (e : exn) (w : world) :
  sleep_error pause = Some e ->
  let outs := outcomes server (requests w) player_urls in
  let run := get_multiple_players_injury_history server player_urls pause w in
  run.1 = batch_table (successes outs)
  /\ (forall pause',
        (get_multiple_players_injury_history server player_urls pause' w).1 = run.1)
  /\ requests run.2 = requests w ++ map injury_url_of player_urls
  /\ sleeps run.2 = sleeps w
  /\ stdout run.2
     = stdout w
       ++ map (fun o => warning o.1 (match o.2 with Ok _ => e | Raise ex => ex end)) outs
  /\ List.length (stdout run.2) = List.length (stdout w) + List.length player_urls.
Proof.
  intros Hpause outs run. unfold run.
  rewrite get_multiple_players_injury_history_run. fold outs. cbn [fst snd requests sleeps stdout].
  destruct (warnings_refused pause e outs Hpause) as [-> ->].
  split; [done|]. split.
  { intros pause'. by rewrite get_multiple_players_injury_history_run. }
  split; [done|]. split; [by rewrite app_nil_r|]. split; [done|].
  rewrite length_app, length_map. unfold outs.
  by rewrite <-(outcomes_urls server (requests w) player_urls) at 2; rewrite length_map.
Qed.

Lemma batch_with_refused_pause_witness :
  let urls := ["https://t.us/a/profil/spieler/1"; "https://t.us/b/profil/spieler/2"] in
  let run := get_multiple_players_injury_history history_server urls (-1)%float fresh in
  let long := get_multiple_players_injury_history history_server urls 1e10%float fresh in
  stdout run.2
  = [ "[WARN] falhou em https://t.us/a/profil/spieler/1: sleep length must be non-negative";
      "[WARN] falhou em https://t.us/b/profil/spieler/2: timed out" ]
  /\ sleeps run.2 = []
  /\ (exists combined,
        run.1 = Ok combined
        /\ column_of (LStr "Player") combined = [Str "A. One"; Str "A. One"])
  /\ stdout long.2
     = [ "[WARN] falhou em https://t.us/a/profil/spieler/1: timestamp too large to convert to C _PyTime_t";
         "[WARN] falhou em https://t.us/b/profil/spieler/2: timed out" ]
  /\ long.1 = run.1.
Proof.
  intros urls run long.
  destruct (batch_with_refused_pause history_server urls (-1)%float sleep_refused fresh eq_refl)
    as (Hrun & Hsame & _ & Hsleeps & Hout & _).
  destruct (batch_with_refused_pause history_server urls 1e10%float sleep_overflow fresh eq_refl)
    as (_ & _ & _ & _ & Hlong & _).
  fold run in Hrun, Hsleeps, Hout, Hsame. fold long in Hlong.
  split; [|split; [|split; [|split]]].
  - rewrite Hout. vm_compute. reflexivity.
  - exact Hsleeps.
  - eexists. split; [rewrite Hrun; vm_compute; reflexivity|]. vm_compute. reflexivity.
  - rewrite Hlong. vm_compute. reflexivity.
  - apply Hsame.
Defined.

(** X17. A batch of one URL whose extraction succeeds returns that
    player's table as [get_player_injury_history] returns it, duplicated
    labels and all.  With a pause that [time.sleep] accepts it leaves the
    same requests and output and one pause more; with a pause that is
    refused it leaves no pause and one line of warning more. *)
Theorem batch_of_one_is_the_history server (player_url : string) (pause : float)
    (w w1 : world) (df : list (label * Series)) :
  get_player_injury_history server player_url w = (Ok df, w1) ->
  (sleep_error pause = None ->
   get_multiple_players_injury_history server [player_url] pause w
   = (Ok df, World (requests w1) (sleeps w1 ++ [pause]) (stdout w1)))
  /\ (forall e, sleep_error pause = Some e ->
        get_multiple_players_injury_history server [player_url] pause w
        = (Ok df, World (requests w1) (sleeps w1) (stdout w1 ++ [warning player_url e]))).
Proof.
  intros Hrun.
  rewrite get_player_injury_history_run in Hrun. injection Hrun as Hdf <-.
  rewrite get_multiple_players_injury_history_run.
  cbn [outcomes successes warnings pauses flat_map fst snd map requests sleeps stdout].
  rewrite Hdf. cbn [app batch_table]. rewrite pd_concat_singleton. split.
  - intros ->. by rewrite !app_nil_r.
  - intros e ->. by rewrite !app_nil_r.
Qed.

Lemma batch_of_one_is_the_history_witness :
  exists df,
    (get_player_injury_history spellings_server "https://t.us/d/profil/spieler/4" fresh).1
    = Ok df
    /\ columns df
       = [LStr "Player"; LStr "Season"; LStr "Games Missed"; LStr "Games Missed";
          LStr "Profile URL"]
    /\ get_multiple_players_injury_history spellings_server
         ["https://t.us/d/profil/spieler/4"] 1%float fresh
       = (Ok df, World ["https://t.us/d/verletzungen/spieler/4"] [1%float] [])
    /\ get_multiple_players_injury_history spellings_server
         ["https://t.us/d/profil/spieler/4"] 1e10%float fresh
       = (Ok df, World ["https://t.us/d/verletzungen/spieler/4"] []
                   ["[WARN] falhou em https://t.us/d/profil/spieler/4: timestamp too large to convert to C _PyTime_t"]).
Proof.
  destruct (get_player_injury_history spellings_server "https://t.us/d/profil/spieler/4" fresh)
    as [[df|e] w1] eqn:Hrun; [|vm_compute in Hrun; discriminate Hrun].
  exists df. split; [reflexivity|].
  pose proof (proj1 (batch_of_one_is_the_history spellings_server _ 1%float fresh w1 df Hrun)
                eq_refl) as Hone.
  pose proof (proj2 (batch_of_one_is_the_history spellings_server _ 1e10%float fresh w1 df Hrun)
                sleep_overflow eq_refl) as Hlong.
  rewrite Hone, Hlong.
  vm_compute in Hrun. injection Hrun as <- <-. repeat split; reflexivity.
Defined.

(** *** The labels and the rows of the stack *)

Lemma forallb_false {A} (f : A -> bool) (l : list A) :
  forallb f l = false -> exists x, x ∈ l /\ f x = false.
Proof.
  induction l as [|x l IH]; simpl; [done|].
  destruct (f x) eqn:Hx; simpl.
  - intros (y & Hy & Hfy)%IH. exists y. split; [by constructor|done].
  - intros _. exists x. split; [constructor|done].
Qed.

Lemma columns_stacked_in_place (first : list (label * Series))
    (rest : list (list (label * Series))) :
  columns (stacked_in_place (first :: rest)) = columns first.
Proof.
  unfold columns, stacked_in_place. apply list_eq. intros i.
  rewrite !map_fmap, !list_lookup_fmap, list_lookup_imap.
  by destruct (first !! i).
Qed.

(** The four ways line 183 can go. *)
Lemma batch_table_cases (frames : list (list (label * Series))) :
  (frames = [] /\ batch_table frames = Ok [])
  \/ (exists first rest,
        frames = first :: rest
        /\ Forall (fun g => columns g = columns first) frames
        /\ batch_table frames = Ok (stacked_in_place frames))
  \/ (Forall (fun df => NoDup (columns df)) frames
      /\ batch_table frames = Ok (stacked frames))
  \/ ((exists df, df ∈ frames /\ ~ NoDup (columns df))
      /\ (exists df1 df2, df1 ∈ frames /\ df2 ∈ frames /\ columns df1 <> columns df2)
      /\ batch_table frames = Raise invalid_index).
Proof.
  destruct frames as [|first rest]; [by left|]. right.
  unfold batch_table, pd_concat.
  destruct (forallb _ rest) eqn:Hsame.
  { left. exists first, rest. split; [done|]. split; [|done].
    constructor; [done|]. apply Forall_forall. intros g Hg.
    rewrite forallb_forall in Hsame. apply list_elem_of_In in Hg.
    by apply (bool_decide_eq_true_1 _), Hsame. }
  right. destruct (forallb unique_labels (first :: rest)) eqn:Hunique.
  { left. split; [|done]. apply Forall_forall. intros g Hg.
    rewrite forallb_forall in Hunique. apply list_elem_of_In in Hg.
    by apply (bool_decide_eq_true_1 _), Hunique. }
  right. split; [|split; [|done]].
  - apply forallb_false in Hunique as (df & Hdf & Hdup). exists df. split; [done|].
    by apply (bool_decide_eq_false_1 _).
  - apply forallb_false in Hsame as (g & Hg & Hdiff). exists g, first.
    split; [by constructor|]. split; [constructor|].
    by apply (bool_decide_eq_false_1 _).
Qed.

(** X18. The labels of the table a batch returns are those of the tables
    that were extracted, no more and no fewer, and it has every label once
    exactly when each of these tables has: a label that the tables have
    twice, which the two spellings of the games column bring about, stays
    twice.  The batch raises, after the last URL, exactly when some table
    has a label twice and the tables do not all carry the same labels;
    tables with every label once are always combined, and so are tables
    that carry the labels of the first. *)
Theorem batch_labels server (player_urls : list string) (pause : float) (w : world) :
  let frames := successes (outcomes server (requests w) player_urls) in
  let run := get_multiple_players_injury_history server player_urls pause w in
  (forall combined,
     run.1 = Ok combined ->
     (forall l, l ∈ columns combined <-> exists df, df ∈ frames /\ l ∈ columns df)
     /\ (NoDup (columns combined) <-> Forall (fun df => NoDup (columns df)) frames))
  /\ (forall e,
        run.1 = Raise e ->
        e = invalid_index
        /\ requests run.2 = requests w ++ map injury_url_of player_urls
        /\ (exists df, df ∈ frames /\ ~ NoDup (columns df))
        /\ (exists df1 df2, df1 ∈ frames /\ df2 ∈ frames /\ columns df1 <> columns df2))
  /\ (Forall (fun df => NoDup (columns df)) frames -> exists combined, run.1 = Ok combined)
  /\ (forall first,
        head frames = Some first ->
        Forall (fun df => columns df = columns first) frames ->
        exists combined, run.1 = Ok combined /\ columns combined = columns first).
Proof.
  intros frames run. unfold run.
  rewrite get_multiple_players_injury_history_run. fold frames. cbn [fst snd requests].
  split; [|split; [|split]].
  - intros combined Hrun.
    destruct (batch_table_cases frames)
      as [[Hnil Hres]|[(first & rest & Hframes & Hsame & Hres)|[[Hnd Hres]|(_ & _ & Hres)]]];
      rewrite Hres in Hrun; [| | |done]; injection Hrun as <-.
    + rewrite Hnil. split.
      * intros l. split; [by intros ?%elem_of_nil|]. by intros (df & ?%elem_of_nil & _).
      * split; [constructor|constructor].
    + rewrite Hframes in *. rewrite columns_stacked_in_place.
      rewrite Forall_forall in Hsame. split.
      * intros l. split.
        -- intros Hl. exists first. split; [constructor|done].
        -- intros (df & Hdf & Hl). by rewrite <-(Hsame df Hdf).
      * split.
        -- intros Hnd. apply Forall_forall. intros df Hdf. by rewrite (Hsame df Hdf).
        -- intros Hnd. by apply Forall_cons in Hnd as [? _].
    + rewrite stacked_columns.
      destruct (nub_spec [] (flat_map columns frames)) as [Hnub Hmem]. split; [|done].
      intros l. rewrite Hmem. split.
      * intros [Hin _]. apply list_elem_of_In, in_flat_map in Hin as (df & Hdf & Hl).
        exists df. split; by apply list_elem_of_In.
      * intros (df & Hdf & Hl). split; [|by intros ?%elem_of_nil].
        apply list_elem_of_In, in_flat_map. exists df. split; by apply list_elem_of_In.
  - intros e Hrun.
    destruct (batch_table_cases frames)
      as [[_ Hres]|[(first & rest & _ & _ & Hres)|[[_ Hres]|(Hdup & Hdiff & Hres)]]];
      rewrite Hres in Hrun; [done..|]. by injection Hrun as <-.
  - intros Hnd. rewrite (batch_table_unique _ Hnd). by eexists.
  - intros first Hhead Hsame. destruct frames as [|first' rest] eqn:Hframes; [done|].
    injection Hhead as ->. eexists. split; [|apply (columns_stacked_in_place first rest)].
    unfold batch_table, pd_concat.
    assert (forallb (fun g => bool_decide (columns g = columns first)) rest = true) as ->;
      [|done].
    apply forallb_forall. intros g Hg. apply list_elem_of_In in Hg.
    apply Forall_cons in Hsame as [_ Hsame]. rewrite Forall_forall in Hsame.
    by apply bool_decide_eq_true_2, Hsame.
Qed.

Lemma batch_labels_witness :
  let run1 := get_multiple_players_injury_history spellings_server
                ["https://t.us/a/profil/spieler/1"; "https://t.us/d/profil/spieler/4"]
                1%float fresh in
  let run2 := get_multiple_players_injury_history spellings_server
                ["https://t.us/d/profil/spieler/4"; "https://t.us/d/profil/spieler/4"]
                1%float fresh in
  (run1.1 = Raise invalid_index
   /\ requests run1.2
      = ["https://t.us/a/verletzungen/spieler/1"; "https://t.us/d/verletzungen/spieler/4"])
  /\ (exists combined,
        run2.1 = Ok combined
        /\ columns combined
           = [LStr "Player"; LStr "Season"; LStr "Games Missed"; LStr "Games Missed";
              LStr "Profile URL"]
        /\ ~ NoDup (columns combined)).
Proof.
  intros run1 run2. split.
  - destruct (batch_labels spellings_server
                ["https://t.us/a/profil/spieler/1"; "https://t.us/d/profil/spieler/4"]
                1%float fresh) as (_ & Hraise & _ & _).
    fold run1 in Hraise. cbn zeta in Hraise.
    destruct (Hraise invalid_index) as (_ & Hreq & _); [vm_compute; reflexivity|].
    split; [vm_compute; reflexivity|exact Hreq].
  - destruct (batch_labels spellings_server
                ["https://t.us/d/profil/spieler/4"; "https://t.us/d/profil/spieler/4"]
                1%float fresh) as (Hok & _ & _ & Hsame).
    fold run2 in Hok, Hsame. cbn zeta in Hok, Hsame.
    destruct (Hsame _ eq_refl) as (combined & Hrun & Hcols).
    { vm_compute. repeat constructor. }
    exists combined. split; [exact Hrun|]. split; [rewrite Hcols; vm_compute; reflexivity|].
    intros Hnd. apply (proj2 (Hok combined Hrun)) in Hnd.
    apply Forall_cons in Hnd as [Hnd _]. vm_compute in Hnd.
    apply NoDup_cons in Hnd as [_ Hnd]. apply NoDup_cons in Hnd as [_ Hnd].
    apply NoDup_cons in Hnd as [Hnd _]. apply Hnd. constructor.
Defined.

Lemma column_of_length (l : label) (df : list (label * Series)) :
  rectangular df -> List.length (column_of l df) = nrows df.
Proof.
  intros Hrect. unfold column_of.
  destruct (list_find _ df) as [[i [l' s]]|] eqn:Hfind.
  - apply list_find_Some in Hfind as (Hi & _ & _).
    apply list_elem_of_lookup_2 in Hi.
    unfold rectangular in Hrect. rewrite Forall_forall in Hrect. exact (Hrect _ Hi).
  - apply length_replicate.
Qed.

Lemma flat_map_column_length (l : label) (frames : list (list (label * Series))) :
  Forall rectangular frames ->
  List.length (flat_map (column_of l) frames) = sum_list (map nrows frames).
Proof.
  induction 1 as [|df frames Hdf _ IH]; [done|].
  cbn [flat_map map sum_list sum_list_with]. rewrite length_app, IH.
  by rewrite (column_of_length l df Hdf).
Qed.

(** A frame whose columns all have [n] cells. *)
Lemma uniform_rectangular (df : list (label * Series)) (n : nat) :
  Forall (fun p => List.length (values p.2) = n) df ->
  rectangular df
  /\ forall l, l ∈ columns df -> List.length (column_of l df) = n.
Proof.
  intros Hall. split.
  - unfold rectangular. destruct df as [|[l s] rest]; [constructor|].
    cbn [nrows]. pose proof Hall as Hhead. apply Forall_cons in Hhead as [Hhead _].
    cbn [snd] in Hhead. by rewrite Hhead.
  - intros l Hl. unfold column_of.
    destruct (list_find _ df) as [[i [l' s]]|] eqn:Hfind.
    + apply list_find_Some in Hfind as (Hi & _ & _).
      apply list_elem_of_lookup_2 in Hi. rewrite Forall_forall in Hall. exact (Hall _ Hi).
    + exfalso. unfold columns in Hl. rewrite map_fmap in Hl.
      apply list_elem_of_fmap in Hl as ([l' s] & -> & Hin).
      rewrite list_find_None, Forall_forall in Hfind. by apply (Hfind _ Hin).
Qed.

Lemma stacked_uniform (frames : list (list (label * Series))) :
  Forall rectangular frames ->
  Forall (fun p => List.length (values p.2) = sum_list (map nrows frames)) (stacked frames).
Proof.
  intros Hrect. unfold stacked. apply Forall_forall. intros p Hp. rewrite map_fmap in Hp.
  apply list_elem_of_fmap in Hp as (l & -> & _). cbn [snd values].
  by apply flat_map_column_length.
Qed.

Lemma cells_at_length (i : nat) (first : list (label * Series))
    (frames : list (list (label * Series))) :
  is_Some (first !! i) ->
  Forall (fun g => columns g = columns first) frames ->
  Forall rectangular frames ->
  List.length (flat_map (cells_at i) frames) = sum_list (map nrows frames).
Proof.
  intros [[l s] Hi] Hsame Hrect. induction Hrect as [|g frames Hg _ IH]; [done|].
  apply Forall_cons in Hsame as [Hcols Hsame].
  cbn [flat_map map sum_list sum_list_with]. rewrite length_app, (IH Hsame). f_equal.
  assert (columns g !! i = Some l) as Hgi
    by (rewrite Hcols; unfold columns; by rewrite map_fmap, list_lookup_fmap, Hi).
  unfold columns in Hgi. rewrite map_fmap, list_lookup_fmap in Hgi.
  unfold cells_at. destruct (g !! i) as [[l' s']|] eqn:Hg'; [|done].
  apply list_elem_of_lookup_2 in Hg'.
  unfold rectangular in Hg. rewrite Forall_forall in Hg. exact (Hg _ Hg').
Qed.

Lemma stacked_in_place_uniform (first : list (label * Series))
    (rest : list (list (label * Series))) :
  Forall (fun g => columns g = columns first) (first :: rest) ->
  Forall rectangular (first :: rest) ->
  Forall (fun p => List.length (values p.2) = sum_list (map nrows (first :: rest)))
         (stacked_in_place (first :: rest)).
Proof.
  intros Hsame Hrect. apply Forall_lookup. intros i p Hp.
  unfold stacked_in_place in Hp. rewrite list_lookup_imap in Hp.
  destruct (first !! i) as [q|] eqn:Hi; [|done]. injection Hp as <-.
  exact (cells_at_length i first (first :: rest) (ex_intro _ q Hi) Hsame Hrect).
Qed.

(** X19. When each extracted table has a cell in every column for every
    row, so has the table the batch returns, and under each of its labels
    it has as many cells as the extracted tables have rows together.  A
    table is returned whenever the extracted tables have every label
    once. *)
Theorem batch_row_count server (player_urls : list string) (pause : float) (w : world) :
  let frames := successes (outcomes server (requests w) player_urls) in
  let run := get_multiple_players_injury_history server player_urls pause w in
  Forall rectangular frames ->
  (forall combined,
     run.1 = Ok combined ->
     rectangular combined
     /\ forall l, l ∈ columns combined ->
          List.length (column_of l combined) = sum_list (map nrows frames))
  /\ (Forall (fun df => NoDup (columns df)) frames -> exists combined, run.1 = Ok combined).
Proof.
  intros frames run Hrect. unfold run.
  rewrite get_multiple_players_injury_history_run. fold frames. cbn [fst]. split.
  - intros combined Hrun. apply uniform_rectangular.
    destruct (batch_table_cases frames)
      as [[Hnil Hres]|[(first & rest & Hframes & Hsame & Hres)|[[Hnd Hres]|(_ & _ & Hres)]]];
      rewrite Hres in Hrun; [| | |done]; injection Hrun as <-.
    + constructor.
    + rewrite Hframes in *. by apply stacked_in_place_uniform.
    + by apply stacked_uniform.
  - intros Hnd. rewrite (batch_table_unique _ Hnd). by eexists.
Qed.

Lemma batch_row_count_witness :
  let urls := [ "https://t.us/a/profil/spieler/1"; "https://t.us/b/profil/spieler/2";
                "https://t.us/c/profil/spieler/3" ] in
  exists combined,
    (get_multiple_players_injury_history history_server urls 1%float fresh).1 = Ok combined
    /\ List.length (column_of (LStr "Injury") combined) = 4.
Proof.
  intros urls.
  destruct (batch_row_count history_server urls 1%float fresh) as (Hrows & Hreturns).
  { vm_compute. repeat constructor. }
  destruct Hreturns as (combined & Hrun); [by_decide|].
  exists combined. split; [exact Hrun|].
  rewrite (proj2 (Hrows combined Hrun)); [vm_compute; reflexivity|].
  vm_compute in Hrun. injection Hrun as <-. vm_compute. repeat constructor.
Defined.

(** ** The layout of the history view *)

Lemma setitem_lookup_other key v (df : list (label * Series)) i l s :
  df !! i = Some (l, s) -> l <> key -> setitem key v df !! i = Some (l, s).
Proof.
  intros Hi Hl. unfold setitem. case_bool_decide.
  - rewrite map_fmap, list_lookup_fmap, Hi. cbn [fmap option_fmap option_map fst].
    by rewrite decide_False.
  - by apply lookup_app_l_Some.
Qed.

Lemma setitem_columns_present key v (df : list (label * Series)) :
  key ∈ columns df -> columns (setitem key v df) = columns df.
Proof.
  intros Hkey. unfold setitem. rewrite bool_decide_eq_true_2 by done.
  unfold columns. rewrite map_map. apply map_ext. intros [l s]. cbn [fst].
  by case_decide.
Qed.

(** X20. The table [get_player_injury_history] returns has "Player"
    first and then the columns of the page's table in their order, each
    under its canonical name: a column of numbers as it was, a column of
    text trimmed.  "Profile URL" follows as one more column, unless the
    table had a column of that name, which is then overwritten where it
    stands. *)
Theorem history_frame_layout server (player_url : string) (w w' : world)
    (out : list (label * Series)) :
  get_player_injury_history server player_url w = (Ok out, w') ->
  exists resp table names,
    server (requests w) (injury_url_of player_url) = Answer resp
    /\ table_items (soup_of resp) = Some (Ok table)
    /\ _flatten_columns (table_columns table) = Ok names
    /\ (forall i l s,
          set_columns table names !! i = Some (l, s) ->
          renamed history_names l <> LStr "Profile URL" ->
          exists s',
            out !! (S i) = Some (renamed history_names l, s')
            /\ strip_if_object s = Ok s'
            /\ (dtype_of s = numeric -> s' = s))
    /\ (LStr "Profile URL" ∉ columns (rename history_names (set_columns table names)) ->
        columns out
        = LStr "Player" :: map (renamed history_names) (columns (set_columns table names))
          ++ [LStr "Profile URL"])
    /\ (LStr "Profile URL" ∈ columns (rename history_names (set_columns table names)) ->
        columns out
        = LStr "Player" :: map (renamed history_names) (columns (set_columns table names))).
Proof.
  intros Hrun.
  destruct (get_player_injury_history_Ok _ _ _ _ _ Hrun)
    as (resp & table & names & pieces & Hresp & Htable & Hnames & Hh1 & Hfresh & Hout).
  exists resp, table, names. repeat (split; [done|]).
  set (frame := rename history_names (set_columns table names)) in *.
  set (player := (LStr "Player",
                  mkSeries object (replicate (nrows (set_columns table names))
                                             (Str (get_text_strip pieces))))) in *.
  split; [|split].
  - intros i l s Hi Hl.
    assert (setitem (LStr "Profile URL") (Str player_url) (player :: frame) !! (S i)
            = Some (renamed history_names l, s)) as Hset.
    { apply setitem_lookup_other; [|done].
      change ((player :: frame) !! S i) with (frame !! i).
      unfold frame, rename. by rewrite map_fmap, list_lookup_fmap, Hi. }
    apply apply_Forall2 in Hout.
    destruct (Forall2_lookup_l _ _ _ _ _ Hout Hset) as ([l' s'] & Hlook & Hl' & Hs').
    cbn [fst snd] in *. subst l'. exists s'. split; [done|]. split; [done|].
    intros Hnum. apply strip_if_object_Ok in Hs' as [[_ ->]|[Hobj _]]; [done|congruence].
  - intros Hnone. rewrite (apply_columns _ _ _ Hout), setitem_appends.
    + unfold columns. rewrite map_app. cbn [map fst player]. f_equal.
      fold (columns frame). unfold frame. by rewrite columns_rename.
    + unfold columns. cbn [map fst player]. intros [Heq|Hin]%elem_of_cons; [done|].
      by apply Hnone.
  - intros Hhas. rewrite (apply_columns _ _ _ Hout), setitem_columns_present.
    + unfold columns. cbn [map fst player]. f_equal.
      fold (columns frame). unfold frame. by rewrite columns_rename.
    + unfold columns. cbn [map fst player]. by apply list_elem_of_further.
Qed.

Lemma history_frame_layout_witness :
  exists out w',
    get_player_injury_history lenient_server "https://t.us/a/profil/spieler/1" fresh
    = (Ok out, w')
    /\ columns out
       = [LStr "Player"; LStr "Season"; LStr "Injury"; LStr "Days Missed"; LStr "Profile URL"]
    /\ out !! 3 = Some (LStr "Days Missed", mkSeries numeric [Num 30; Num 4]).
Proof.
  destruct (get_player_injury_history lenient_server "https://t.us/a/profil/spieler/1" fresh)
    as [[out|e] w'] eqn:Hrun; [|vm_compute in Hrun; discriminate Hrun].
  exists out, w'. split; [reflexivity|].
  destruct (history_frame_layout _ _ _ _ _ Hrun)
    as (resp & table & names & Hresp & Htable & Hnames & Hcols & Hnew & _).
  unfold lenient_server in Hresp. injection Hresp as <-.
  simpl in Htable. injection Htable as <-.
  simpl in Hnames. injection Hnames as <-.
  split.
  - rewrite Hnew; [reflexivity|]. vm_compute.
    intros Hin. repeat (apply elem_of_cons in Hin as [Hin|Hin]; [discriminate Hin|]).
    by apply elem_of_nil in Hin.
  - destruct (Hcols 2 (LStr "Days") (mkSeries numeric [Num 30; Num 4]) eq_refl)
      as (s' & Hlook & _ & Hsame); [discriminate|].
    by rewrite Hlook, (Hsame eq_refl).
Defined.
